(** * DataEnrichmentAgent.select_top_stocks: ranking, allocation, share
      quantization and the rebalance pass

    Shallow embedding of [src/agents/data_enrichment.py], lines 221-349.

    Numbers.  The source computes on IEEE binary64 values held in pandas
    columns.  Finite values are modelled as exact rationals ([Q]); rounding
    error of the hardware is not modelled.  The three special values that
    pandas produces on an unguarded division (NaN and the two infinities)
    are kept, in the type [float64], for the one column that can hold them
    ([popularity_score]).  Equality of rationals is [Qeq], written [==].

    Frames.  A DataFrame is a list of rows in frame order; a row carries its
    index label and every column the function reads or writes.  DataFrames
    are mutable objects: they live in a store and are named by references,
    so that writes to a copy and writes to the caller's frame are told
    apart.

    Left out: the calls to [self.log], which only print, and the temporary
    frame [affordable], which is read once and dropped.

    [DataFrame.sort_values] is a pandas routine, not code of this
    repository: [select_top_stocks] takes it as a parameter, and the
    statements about ranking say what they assume of it. *)

From Stdlib Require Import QArith Qround ZArith List Lia Lqa Bool String.
From Stdlib Require Import Permutation Sorted.
From Stdlib Require Import Qabs Ascii.
From stdpp Require Import gmap.
Import ListNotations.

Local Open Scope Q_scope.

(** ** Rational helpers *)

Definition Qltb (x y : Q) : bool := negb (Qle_bool y x).
Definition Qleb (x y : Q) : bool := Qle_bool x y.
Definition Qeqb (x y : Q) : bool := Qeq_bool x y.

(** [int(x)]: truncation toward zero. *)
Definition int_of (x : Q) : Z :=
  if Qleb 0 x then Qfloor x else Qceiling x.

(** [round(x, 2)] of Python: the nearest multiple of 1/100, a tie going to
    the even one. *)
Definition round_half_even (x : Q) : Z :=
  let f := Qfloor x in
  let d := x - inject_Z f in
  if Qltb d (1 # 2) then f
  else if Qltb (1 # 2) d then (f + 1)%Z
  else if Z.even f then f else (f + 1)%Z.

Definition round2 (x : Q) : Q := inject_Z (round_half_even (x * 100)) / 100.

(** [Series.sum()]. *)
Definition Qsum (l : list Q) : Q := fold_right Qplus 0 l.

(** [Series.max()] of a column without missing values; [None] on an empty
    column (pandas answers NaN there). *)
Definition Qmax (x y : Q) : Q := if Qleb x y then y else x.

Definition Qmaximum (l : list Q) : option Q :=
  match l with
  | [] => None
  | x :: l' => Some (fold_left Qmax l' x)
  end.

(** ** binary64 values with their special values *)

Inductive float64 : Type :=
| Fin (q : Q)
| PInf
| NInf
| NaN.

Module F.

Definition sgn (q : Q) : comparison := 0 ?= q.

Definition of_sign (c : comparison) : float64 :=
  match c with Lt => PInf | Gt => NInf | Eq => NaN end.

Definition flip (c : comparison) : comparison := CompOpp c.

Definition add (x y : float64) : float64 :=
  match x, y with
  | NaN, _ | _, NaN => NaN
  | PInf, NInf | NInf, PInf => NaN
  | PInf, _ | _, PInf => PInf
  | NInf, _ | _, NInf => NInf
  | Fin a, Fin b => Fin (a + b)
  end.

Definition mul (x y : float64) : float64 :=
  match x, y with
  | NaN, _ | _, NaN => NaN
  | Fin a, Fin b => Fin (a * b)
  | PInf, Fin a | Fin a, PInf => of_sign (sgn a)
  | NInf, Fin a | Fin a, NInf => of_sign (flip (sgn a))
  | PInf, PInf | NInf, NInf => PInf
  | PInf, NInf | NInf, PInf => NInf
  end.

(** Division as numpy performs it on a column: no exception, a zero
    divisor gives NaN (0/0) or an infinity (x/0). *)
Definition div (x y : float64) : float64 :=
  match x, y with
  | NaN, _ | _, NaN => NaN
  | Fin a, Fin b => if Qeqb b 0 then of_sign (sgn a) else Fin (a / b)
  | Fin _, (PInf | NInf) => Fin 0
  | (PInf | NInf), (PInf | NInf) => NaN
  | PInf, Fin b => if Qleb 0 b then PInf else NInf
  | NInf, Fin b => if Qleb 0 b then NInf else PInf
  end.

Definition is_nan (x : float64) : bool :=
  match x with NaN => true | _ => false end.

Definition is_finite (x : float64) : bool :=
  match x with Fin _ => true | _ => false end.

(** [x <= y] on values that are not NaN; false when one of them is. *)
Definition leb (x y : float64) : bool :=
  match x, y with
  | NaN, _ | _, NaN => false
  | NInf, _ => true
  | _, PInf => true
  | Fin a, Fin b => Qleb a b
  | _, _ => false
  end.

End F.

(** ** Rows and frames *)

Record row : Type := mkRow {
  label : Z;                      (* index label of the row *)
  symbol : string;
  current_price : Q;
  market_cap : Q;
  volume : Q;
  quality_score : Q;
  popularity_score : float64;
  allocation_percentage : Q;
  recommended_investment : Q;
  shares_to_buy : Q;
  actual_investment : Q
}.

Definition frame : Type := list row.

Definition set_popularity_score (v : float64) (r : row) : row :=
  mkRow (label r) (symbol r) (current_price r) (market_cap r) (volume r)
        (quality_score r) v (allocation_percentage r)
        (recommended_investment r) (shares_to_buy r) (actual_investment r).

Definition set_allocation_percentage (v : Q) (r : row) : row :=
  mkRow (label r) (symbol r) (current_price r) (market_cap r) (volume r)
        (quality_score r) (popularity_score r) v
        (recommended_investment r) (shares_to_buy r) (actual_investment r).

Definition set_recommended_investment (v : Q) (r : row) : row :=
  mkRow (label r) (symbol r) (current_price r) (market_cap r) (volume r)
        (quality_score r) (popularity_score r) (allocation_percentage r)
        v (shares_to_buy r) (actual_investment r).

Definition set_shares_to_buy (v : Q) (r : row) : row :=
  mkRow (label r) (symbol r) (current_price r) (market_cap r) (volume r)
        (quality_score r) (popularity_score r) (allocation_percentage r)
        (recommended_investment r) v (actual_investment r).

Definition set_actual_investment (v : Q) (r : row) : row :=
  mkRow (label r) (symbol r) (current_price r) (market_cap r) (volume r)
        (quality_score r) (popularity_score r) (allocation_percentage r)
        (recommended_investment r) (shares_to_buy r) v.

(** [df[col]]: a column as a list, in frame order. *)
Definition column {A : Type} (f : row -> A) (df : frame) : list A := map f df.

(** [df.head(n)]: the first [n] rows, or all but the last [-n] when [n] is
    negative. *)
Definition head (n : Z) (df : frame) : frame :=
  if (0 <=? n)%Z then firstn (Z.to_nat n) df
  else firstn (length df - Z.to_nat (- n)) df.

(** ** Popularity (lines 241-245) *)

Definition series_max (l : list Q) : float64 :=
  match Qmaximum l with Some m => Fin m | None => NaN end.

(** [x / col.max() * 100]. *)
Definition normalized (x : Q) (mx : float64) : float64 :=
  F.mul (F.div (Fin x) mx) (Fin 100).

Definition popularity (mc_max vol_max : float64) (r : row) : float64 :=
  F.add
    (F.add (F.mul (normalized (market_cap r) mc_max) (Fin (35 # 100)))
           (F.mul (normalized (volume r) vol_max) (Fin (25 # 100))))
    (F.mul (Fin (quality_score r)) (Fin (40 # 100))).

Definition assign_popularity (df : frame) : frame :=
  let mc_max := series_max (column market_cap df) in
  let vol_max := series_max (column volume df) in
  map (fun r => set_popularity_score (popularity mc_max vol_max r) r) df.

(** ** Allocation (lines 259-273) *)

Inductive exn : Type :=
| ZeroDivisionError
| DanglingReference.

Inductive outcome (A : Type) : Type :=
| Return (a : A)
| Raise (e : exn)
| OutOfFuel.
Arguments Return {A} a.
Arguments Raise {A} e.
Arguments OutOfFuel {A}.

Definition assign_allocation (top_stocks : frame) : outcome frame :=
  let total_score := Qsum (column quality_score top_stocks) in
  if Qeqb total_score 0 then
    match length top_stocks with
    | O => Raise ZeroDivisionError
    | n => Return (map (set_allocation_percentage (100 / inject_Z (Z.of_nat n)))
                       top_stocks)
    end
  else
    Return (map (fun r => set_allocation_percentage
                            (quality_score r / total_score * 100) r)
                top_stocks).

Definition assign_recommended (amount : Q) (top_stocks : frame) : frame :=
  map (fun r => set_recommended_investment
                  (amount * allocation_percentage r / 100) r)
      top_stocks.

(** ** Share quantization (lines 276-304) *)

Definition calculate_shares (amount : Q) (r : row) : Q :=
  let price := current_price r in
  let allocated := recommended_investment r in
  if Qleb price 0 then 0
  else
    let exact_shares := allocated / price in
    if Qltb amount 10000 then round2 exact_shares
    else if Qleb (1 # 2) exact_shares
         then inject_Z (Z.max 1 (int_of exact_shares))
         else 0.

Definition assign_shares (amount : Q) (top_stocks : frame) : frame :=
  map (fun r => set_shares_to_buy (calculate_shares amount r) r) top_stocks.

Definition assign_actual (top_stocks : frame) : frame :=
  map (fun r => set_actual_investment (shares_to_buy r * current_price r) r)
      top_stocks.

Definition total_actual (top_stocks : frame) : Q :=
  Qsum (column actual_investment top_stocks).

(** ** Rebalance pass (lines 306-330) *)

(** [top_stocks[top_stocks['current_price'] <= amount - total_invested]]. *)
Definition affordable_rows (amount total_invested : Q) (top_stocks : frame)
  : frame :=
  List.filter (fun r => Qleb (current_price r) (amount - total_invested))
              top_stocks.

(** [Series.idxmin()]: the label of the first row holding the minimum. *)
Fixpoint first_min (best : row) (rest : frame) : row :=
  match rest with
  | [] => best
  | r :: rest' =>
      first_min (if Qltb (current_price r) (current_price best) then r else best)
                rest'
  end.

Definition idxmin (df : frame) : option Z :=
  match df with
  | [] => None
  | r :: rest => Some (label (first_min r rest))
  end.

(** [df.loc[idx, col] = f(row)]: every row labelled [idx] is rewritten. *)
Definition loc_update (idx : Z) (f : row -> row) (df : frame) : frame :=
  map (fun r => if (label r =? idx)%Z then f r else r) df.

Definition add_share (r : row) : row :=
  set_shares_to_buy (shares_to_buy r + 1) r.

Definition recompute_actual (r : row) : row :=
  set_actual_investment (shares_to_buy r * current_price r) r.

(** "Add 1 share to cheapest": the two assignments of lines 324-328. *)
Definition add_one_share (cheapest_idx : Z) (top_stocks : frame) : frame :=
  loc_update cheapest_idx recompute_actual
    (loc_update cheapest_idx add_share top_stocks).

(** One pass through the body of the [while]; [None] is the [break]. *)
Definition rebalance_step (amount total_invested : Q) (top_stocks : frame)
  : option frame :=
  match idxmin (affordable_rows amount total_invested top_stocks) with
  | None => None
  | Some cheapest_idx => Some (add_one_share cheapest_idx top_stocks)
  end.

(** The [while] loop; [fuel] bounds the number of passes that add a share
    (a pass that ends in [break] costs none). *)
Fixpoint rebalance_loop (fuel : nat) (amount total_invested : Q)
         (top_stocks : frame) : outcome frame :=
  if Qltb total_invested (amount * (95 # 100)) then
    match rebalance_step amount total_invested top_stocks with
    | None => Return top_stocks
    | Some top_stocks' =>
        match fuel with
        | O => OutOfFuel
        | S fuel' =>
            rebalance_loop fuel' amount (total_actual top_stocks') top_stocks'
        end
    end
  else Return top_stocks.

Definition rebalance (fuel : nat) (amount : Q) (top_stocks : frame)
  : outcome frame :=
  let total_invested := total_actual top_stocks in
  if Qltb total_invested (amount * (8 # 10))
  then rebalance_loop fuel amount total_invested top_stocks
  else Return top_stocks.

(** Quantization: the three column assignments of lines 271-304. *)
Definition quantize (amount : Q) (top_stocks : frame) : frame :=
  assign_actual (assign_shares amount (assign_recommended amount top_stocks)).

(** The three assignments of quantization, row by row. *)
Definition quantize_row (amount : Q) (r : row) : row :=
  let r1 := set_recommended_investment
              (amount * allocation_percentage r / 100) r in
  let r2 := set_shares_to_buy (calculate_shares amount r1) r1 in
  set_actual_investment (shares_to_buy r2 * current_price r2) r2.

(** Everything the function does to [top_stocks] once it is selected. *)
Definition allocate (fuel : nat) (amount : Q) (top_stocks : frame)
  : outcome frame :=
  match assign_allocation top_stocks with
  | Return t => rebalance fuel amount (quantize amount t)
  | Raise e => Raise e
  | OutOfFuel => OutOfFuel
  end.

Definition utilization (amount : Q) (top_stocks : frame) : Q :=
  total_actual top_stocks / amount * 100.

(** ** The store of DataFrame objects *)

Abbreviation store := (gmap nat frame).

(** Computations that read and write the store, and may raise. *)
Definition M (A : Type) : Type := store -> outcome A * store.

Definition ret {A : Type} (a : A) : M A := fun s => (Return a, s).

Definition bind {A B : Type} (m : M A) (k : A -> M B) : M B :=
  fun s =>
    match m s with
    | (Return a, s') => k a s'
    | (Raise e, s') => (Raise e, s')
    | (OutOfFuel, s') => (OutOfFuel, s')
    end.

Notation "x <~ m ;; k" := (bind m (fun x => k))
  (at level 100, m at next level, right associativity).

Definition lift {A : Type} (o : outcome A) : M A := fun s => (o, s).

(** Dereference a frame. *)
Definition df_get (r : nat) : M frame :=
  fun s =>
    match s !! r with
    | Some d => (Return d, s)
    | None => (Raise DanglingReference, s)
    end.

(** A new DataFrame object. *)
Definition df_new (d : frame) : M nat :=
  fun s => let r := fresh (dom s) in (Return r, <[r := d]> s).

(** [df.copy()]. *)
Definition df_copy (r : nat) : M nat :=
  d <~ df_get r ;; df_new d.

(** In-place assignment to the object [r] ([df[col] = ...],
    [df.loc[i, col] = ...]). *)
Definition df_modify (r : nat) (f : frame -> frame) : M unit :=
  fun s =>
    match s !! r with
    | Some d => (Return tt, <[r := f d]> s)
    | None => (Raise DanglingReference, s)
    end.

(** ** select_top_stocks (lines 221-349) *)

Section SelectTopStocks.

(** [df.sort_values('popularity_score', ascending=False)], a pandas
    routine; it builds a new frame and leaves its argument alone. *)
Variable sort_values : frame -> frame.

(** The [while] loop, acting on the object [top_stocks]. *)
Fixpoint rebalance_while (fuel : nat) (amount total_invested : Q)
         (top_stocks : nat) : M unit :=
  if Qltb total_invested (amount * (95 # 100)) then
    t <~ df_get top_stocks ;;
    match idxmin (affordable_rows amount total_invested t) with
    | None => ret tt
    | Some cheapest_idx =>
        match fuel with
        | O => lift OutOfFuel
        | S fuel' =>
            _ <~ df_modify top_stocks (loc_update cheapest_idx add_share) ;;
            _ <~ df_modify top_stocks
                   (loc_update cheapest_idx recompute_actual) ;;
            t' <~ df_get top_stocks ;;
            rebalance_while fuel' amount (total_actual t') top_stocks
        end
    end
  else ret tt.

Definition select_top_stocks (fuel : nat) (df : nat) (amount : Q)
           (count : Z) : M nat :=
  d <~ df_get df ;;
  match d with
  | [] => ret df                                     (* if df.empty: return df *)
  | _ :: _ =>
      df1 <~ df_copy df ;;                           (* df = df.copy() *)
      _ <~ df_modify df1 assign_popularity ;;        (* df['popularity_score'] = *)
      d1 <~ df_get df1 ;;
      df2 <~ df_new (sort_values d1) ;;              (* df = df.sort_values(..) *)
      d2 <~ df_get df2 ;;
      hd <~ df_new (head count d2) ;;                (* df.head(count) *)
      top_stocks <~ df_copy hd ;;                    (* .copy() *)
      t <~ df_get top_stocks ;;
      t1 <~ lift (assign_allocation t) ;;            (* total_score, if / else *)
      _ <~ df_modify top_stocks (fun _ => t1) ;;     (* ['allocation_percentage'] = *)
      _ <~ df_modify top_stocks (assign_recommended amount) ;;
      _ <~ df_modify top_stocks (assign_shares amount) ;;
      _ <~ df_modify top_stocks assign_actual ;;
      t2 <~ df_get top_stocks ;;
      let total_invested := total_actual t2 in
      _ <~ (if Qltb total_invested (amount * (8 # 10))
            then rebalance_while fuel amount total_invested top_stocks
            else ret tt) ;;
      ret top_stocks
  end.

End SelectTopStocks.

(** ** Predicates of the statements *)

(** The spend recorded for a row is its share count times its price. *)
Definition consistent (r : row) : Prop :=
  actual_investment r == shares_to_buy r * current_price r.


(** ** Frames used in the examples *)

(** A row as a caller supplies it.  The columns that [select_top_stocks]
    adds are not there yet; their slots hold NaN and 0 and are written
    before they are read. *)
Definition candidate (l : Z) (s : string) (price mc vol quality : Q) : row :=
  mkRow l s price mc vol quality NaN 0 0 0 0.

(** The two candidates of the worked scenario: A at 100 with quality 80, B
    at 50 with quality 20. *)
Definition scenario_AB : frame :=
  [ candidate 0 "A" 100 2000 3000 80; candidate 1 "B" 50 1000 1000 20 ].

(** One candidate whose price is above the whole budget of 10000. *)
Definition overpriced : frame := [ candidate 0 "X" 15000 1000 1000 50 ].

(** One candidate without a price (price 0), budget 100. *)
Definition unpriced : frame := [ candidate 0 "Z" 0 1000 1000 50 ].

(** Two candidates whose market capitalization is 0. *)
Definition zero_caps : frame :=
  [ candidate 0 "A" 100 0 3000 80; candidate 1 "B" 50 0 1000 20 ].

(** The largest value of a column is zero. *)
Definition max_is_zero (l : list Q) : Prop :=
  match Qmaximum l with
  | Some mx => mx == 0
  | None => False
  end.

(** The two columns that popularity normalizes by their maximum. *)
Inductive normalized_column : Type := MarketCap | Volume.

Definition column_of (c : normalized_column) : row -> Q :=
  match c with MarketCap => market_cap | Volume => volume end.

(** The outcome of a computation, with another value on return. *)
Definition outcome_map {A B : Type} (f : A -> B) (o : outcome A) : outcome B :=
  match o with
  | Return a => Return (f a)
  | Raise e => Raise e
  | OutOfFuel => OutOfFuel
  end.

(** The frame [select_top_stocks] allocates on: the first [count] rows of
    the ranked frame. *)
Definition ranked_head (sort_values : frame -> frame) (count : Z) (d : frame)
  : frame :=
  head count (sort_values (assign_popularity d)).

(** ** Ranking order *)

(** In a frame sorted on a column in descending order, with missing values
    last, a value [x] may stand before [y] when [y] is missing or [y <= x]. *)
Definition may_precede (x y : float64) : bool := F.is_nan y || F.leb y x.

Definition ranks_before (a b : row) : Prop :=
  may_precede (popularity_score a) (popularity_score b) = true.

(** What [sort_values(..., ascending=False)] is known to do with its default
    [kind] (quicksort): the result holds the same rows, in non-increasing
    order of the column, missing values last.  The default [kind] makes no
    promise on the order of rows with equal values. *)
Definition sorts_descending (sort_values : frame -> frame) : Prop :=
  forall df, Permutation df (sort_values df)
             /\ StronglySorted ranks_before (sort_values df).

(** A sort that meets this description and puts rows with equal values in
    the reverse of their input order. *)
Fixpoint insert_after (r : row) (l : frame) : frame :=
  match l with
  | [] => [r]
  | h :: tl =>
      if may_precede (popularity_score h) (popularity_score r)
      then h :: insert_after r tl
      else r :: l
  end.

Definition sort_ties_reversed (df : frame) : frame :=
  fold_right insert_after [] df.


(** ** The library sort behind [sort_values]

    [DataFrame.sort_values] with one key calls pandas' [nargsort], which
    sets the missing values aside and hands the others to
    [ndarray.argsort(kind='quicksort')].  Where numpy dispatches no vector
    routine, that is the introsort [aquicksort_] of
    [numpy/_core/src/npysort/quicksort.cpp]: median-of-three partitioning
    above 16 elements, insertion sort at and below.  Its fall-back to
    heapsort when the depth limit is reached is not modelled: the model
    answers [None] there, and when it runs out of [fuel]. *)

Module NumpySort.

Definition SMALL_QUICKSORT : Z := 15.

(** [a < b || (b != b && a == a)]: the order of doubles, NaN last. *)
Definition LT (a b : float64) : bool :=
  (F.leb a b && negb (F.leb b a)) || (F.is_nan b && negb (F.is_nan a)).

Section Argsort.

(** The values being sorted. *)
Variable v : list float64.

Definition val (k : nat) : float64 := nth k v NaN.

Definition get (a : list nat) (i : Z) : nat := nth (Z.to_nat i) a 0%nat.

Definition set (a : list nat) (i : Z) (x : nat) : list nat :=
  <[Z.to_nat i := x]> a.

Definition swap (a : list nat) (i j : Z) : list nat :=
  set (set a i (get a j)) j (get a i).

Definition swap_if_less (a : list nat) (i j : Z) : list nat :=
  if LT (val (get a i)) (val (get a j)) then swap a i j else a.

(** [do ++pi; while (LT(v[*pi], vp));] *)
Fixpoint scan_up (fuel : nat) (a : list nat) (vp : float64) (pi : Z)
  : option Z :=
  match fuel with
  | O => None
  | S fuel' =>
      let pi' := (pi + 1)%Z in
      if LT (val (get a pi')) vp then scan_up fuel' a vp pi' else Some pi'
  end.

(** [do --pj; while (LT(vp, v[*pj]));] *)
Fixpoint scan_down (fuel : nat) (a : list nat) (vp : float64) (pj : Z)
  : option Z :=
  match fuel with
  | O => None
  | S fuel' =>
      let pj' := (pj - 1)%Z in
      if LT vp (val (get a pj')) then scan_down fuel' a vp pj' else Some pj'
  end.

(** The [for (;;)] of the partition; the answer is the array and [pi]. *)
Fixpoint partition_loop (fuel : nat) (a : list nat) (vp : float64)
         (pi pj : Z) : option (list nat * Z) :=
  match fuel with
  | O => None
  | S fuel' =>
      match scan_up fuel a vp pi with
      | None => None
      | Some pi' =>
          match scan_down fuel a vp pj with
          | None => None
          | Some pj' =>
              if (pj' <=? pi')%Z then Some (a, pi')
              else partition_loop fuel' (swap a pi' pj') vp pi' pj'
          end
      end
  end.

(** One pass of [while ((pr - pl) > SMALL_QUICKSORT)]: the array and the
    place [pi] of the pivot. *)
Definition partition (fuel : nat) (a : list nat) (pl pr : Z)
  : option (list nat * Z) :=
  let pm := (pl + Z.shiftr (pr - pl) 1)%Z in
  let a := swap_if_less a pm pl in
  let a := swap_if_less a pr pm in
  let a := swap_if_less a pm pl in
  let vp := val (get a pm) in
  let pj := (pr - 1)%Z in
  let a := swap a pm pj in
  match partition_loop fuel a vp pl pj with
  | None => None
  | Some (a, pi) => Some (swap a pi (pr - 1)%Z, pi)
  end.

(** The pending ranges, each with the depth left for it. *)
Definition stack : Type := list (Z * Z * Z).

Fixpoint partition_while (fuel : nat) (a : list nat) (pl pr : Z)
         (st : stack) (cdepth : Z) : option (list nat * Z * Z * stack * Z) :=
  if (SMALL_QUICKSORT <? pr - pl)%Z then
    match fuel with
    | O => None
    | S fuel' =>
        match partition fuel a pl pr with
        | None => None
        | Some (a, pi) =>
            let cdepth := (cdepth - 1)%Z in
            if (pi - pl <? pr - pi)%Z
            then partition_while fuel' a pl (pi - 1)%Z
                   ((pi + 1, pr, cdepth)%Z :: st) cdepth
            else partition_while fuel' a (pi + 1)%Z pr
                   ((pl, pi - 1, cdepth)%Z :: st) cdepth
        end
    end
  else Some (a, pl, pr, st, cdepth).

(** [while (pj > pl && LT(vp, v[*pk])) *pj-- = *pk--;] *)
Fixpoint shift (fuel : nat) (a : list nat) (vp : float64) (pl pj : Z)
  : list nat * Z :=
  match fuel with
  | O => (a, pj)
  | S fuel' =>
      if (pl <? pj)%Z && LT vp (val (get a (pj - 1)%Z))
      then shift fuel' (set a pj (get a (pj - 1)%Z)) vp pl (pj - 1)%Z
      else (a, pj)
  end.

(** The insertion sort of the range [pl .. pr]. *)
Definition insertion_sort (a : list nat) (pl pr : Z) : list nat :=
  fold_left
    (fun a k =>
       let pi := (pl + 1 + Z.of_nat k)%Z in
       let vi := get a pi in
       let '(a, pj) := shift (length a) a (val vi) pl pi in
       set a pj vi)
    (seq 0 (Z.to_nat (pr - pl)))
    a.

(** The [while (1)] of [aquicksort_]. *)
Fixpoint quicksort_loop (fuel : nat) (a : list nat) (pl pr : Z) (st : stack)
         (cdepth : Z) : option (list nat) :=
  match fuel with
  | O => None
  | S fuel' =>
      if (cdepth <? 0)%Z then None
      else
        match partition_while fuel a pl pr st cdepth with
        | None => None
        | Some (a, pl, pr, st, _) =>
            let a := insertion_sort a pl pr in
            match st with
            | [] => Some a
            | (pl', pr', cdepth') :: st' =>
                quicksort_loop fuel' a pl' pr' st' cdepth'
            end
        end
  end.

End Argsort.

(** [v.argsort(kind='quicksort')]. *)
Definition argsort (v : list float64) : option (list nat) :=
  let num := Z.of_nat (length v) in
  quicksort_loop v (S (length v)) (seq 0 (length v)) 0 (num - 1) []
                 (Z.log2 num * 2).

(** pandas' [nargsort(items, ascending=False, na_position='last')]. *)
Definition nargsort (items : list float64) : option (list nat) :=
  let idx := seq 0 (length items) in
  let keep := List.filter (fun i => negb (F.is_nan (nth i items NaN))) idx in
  let nan_idx := List.filter (fun i => F.is_nan (nth i items NaN)) idx in
  let non_nans := rev (map (fun i => nth i items NaN) keep) in
  let non_nan_idx := rev keep in
  match argsort non_nans with
  | None => None
  | Some order =>
      Some (rev (map (fun k => nth k non_nan_idx 0%nat) order) ++ nan_idx)
  end.

(** [df.sort_values('popularity_score', ascending=False)]. *)
Definition sort_values (df : frame) : option frame :=
  match nargsort (column popularity_score df) with
  | None => None
  | Some indexer => Some (flat_map (fun i => firstn 1 (skipn i df)) indexer)
  end.

End NumpySort.


(** ** A small logic for the frames of the caller *)

(** [keeps s0 m post]: started in any store that still holds every frame
    of [s0] unchanged, [m] leaves them unchanged, and a returned value
    satisfies [post]. *)
Definition keeps {A : Type} (s0 : store) (m : M A) (post : A -> Prop) : Prop :=
  forall s, s0 ⊆ s ->
            s0 ⊆ (m s).2
            /\ match (m s).1 with Return a => post a | _ => True end.

(** A store holding one empty frame, at reference 0. *)
Definition store_with_empty_frame : store := {[ 0%nat := [] ]}.

(** A store holding the frame [unpriced], at reference 0. *)
Definition store_with_unpriced : store := {[ 0%nat := unpriced ]}.

(** * The functions around select_top_stocks

    The other methods of [DataEnrichmentAgent] (lines 28-219), and what the
    callers of [select_top_stocks] do with its argument and its result. *)

(** ** Text *)

(** [str.lower()], on ASCII text. *)
Definition lower_char (c : ascii) : ascii :=
  let n := nat_of_ascii c in
  if (65 <=? n)%nat && (n <=? 90)%nat then ascii_of_nat (n + 32) else c.

Fixpoint lower (s : string) : string :=
  match s with
  | EmptyString => EmptyString
  | String c s' => String (lower_char c) (lower s')
  end.

(** [key in s]. *)
Fixpoint contains (key s : string) : bool :=
  String.prefix key s
  || match s with
     | EmptyString => false
     | String _ s' => contains key s'
     end.

Local Open Scope string_scope.

(** ** _guess_sector (lines 173-196) *)

(** The dictionary [sector_map], in the order of its entries. *)
Definition sector_map : list (string * string) :=
  [ ("bank", "Banking");
    ("hdfc", "Banking");
    ("icici", "Banking");
    ("axis", "Banking");
    ("sbi", "Banking");
    ("kotak", "Banking");
    ("tcs", "IT");
    ("infy", "IT");
    ("wipro", "IT");
    ("tech", "IT");
    ("hcl", "IT");
    ("reliance", "Energy");
    ("ongc", "Energy");
    ("oil", "Energy");
    ("pharma", "Pharma");
    ("cipla", "Pharma");
    ("sun", "Pharma");
    ("itc", "FMCG");
    ("hul", "FMCG");
    ("britannia", "FMCG");
    ("maruti", "Auto");
    ("tata", "Auto");
    ("bajaj", "Auto");
    ("titan", "Consumer");
    ("nest", "FMCG");
    ("asian", "Consumer");
    ("power", "Power");
    ("ntpc", "Power");
    ("coal", "Power");
    ("cement", "Cement");
    ("ultra", "Cement");
    ("acc", "Cement");
    ("castrol", "Energy");
    ("atul", "Chemicals");
    ("data", "IT");
    ("bls", "Services");
    ("aegis", "Infrastructure") ].

(** The [for key, sector in sector_map.items()] loop. *)
Fixpoint first_sector (symbol_lower : string) (m : list (string * string))
  : string :=
  match m with
  | [] => "Other"
  | (key, sector) :: m' =>
      if contains key symbol_lower then sector
      else first_sector symbol_lower m'
  end.

Definition _guess_sector (symbol : string) : string :=
  first_sector (lower symbol) sector_map.

(** ** _calculate_risk (lines 198-205) *)

Definition _calculate_risk (volatility : Q) : string :=
  if Qltb volatility 5 then "Low"
  else if Qltb volatility 15 then "Medium"
  else "High".

(** ** _generate_realistic_stock (lines 79-171) *)

(** The dictionary [price_ranges]. *)
Definition price_ranges : list (string * (Q * Q)) :=
  [ ("RELIANCE", (2000, 3000));
    ("TCS", (3000, 4500));
    ("HDFCBANK", (1400, 1800));
    ("INFY", (1300, 1800));
    ("ICICIBANK", (900, 1300));
    ("HINDUNILVR", (2400, 2900));
    ("ITC", (400, 500));
    ("SBIN", (600, 900));
    ("BHARTIARTL", (1300, 1700));
    ("KOTAKBANK", (1600, 2000));
    ("LT", (3200, 3800));
    ("HCLTECH", (1400, 1800));
    ("AXISBANK", (1000, 1300));
    ("ASIANPAINT", (2800, 3400));
    ("MARUTI", (10000, 12500));
    ("SUNPHARMA", (1400, 1700));
    ("TITAN", (3000, 3600));
    ("ULTRACEMCO", (9000, 11000));
    ("NESTLEIND", (2200, 2600));
    ("WIPRO", (500, 650));
    ("BAJFINANCE", (6000, 7500));
    ("M&M", (2300, 2900));
    ("POWERGRID", (250, 320));
    ("NTPC", (300, 380));
    ("ONGC", (220, 280));
    ("COALINDIA", (380, 450));
    ("ADANIPORTS", (700, 950));
    ("ADANIGREEN", (800, 1200));
    ("ABB", (5000, 7000));
    ("GODREJCP", (1100, 1400));
    ("PIDILITIND", (2500, 3200));
    ("BERGEPAINT", (450, 600));
    ("SIEMENS", (4500, 6500));
    ("BOSCHLTD", (28000, 34000));
    ("MUTHOOTFIN", (1600, 2000));
    ("ASTRAL", (1700, 2100));
    ("ZOMATO", (180, 250));
    ("PAYTM", (400, 600));
    ("IRCTC", (700, 900));
    ("CDSL", (200, 400));
    ("POLICYBZR", (150, 300));
    ("TATAMOTORS", (900, 1200));
    ("JUBLFOOD", (500, 650));
    ("PVR", (200, 400));
    ("LICI", (100, 200));
    ("CASTROLIND", (150, 300));
    ("ATUL", (200, 400));
    ("ANANDRATHI", (150, 350));
    ("DATAPATTNS", (180, 320));
    ("BLS", (100, 250));
    ("AEGISVOPAK", (120, 280));
    ("ABREL", (140, 300));
    ("AARTIIND", (180, 350));
    ("BANDHANBNK", (200, 400)) ].

(** [d.get(key, default)]. *)
Fixpoint dict_get {V : Type} (d : list (string * V)) (key : string)
         (default : V) : V :=
  match d with
  | [] => default
  | (k, v) :: d' => if String.eqb k key then v else dict_get d' key default
  end.

(** The random numbers one call consumes, in the order of the calls: the
    value of [random.random()] behind each [random.uniform], and the value
    of [_randbelow] behind each [random.randint]. *)
Record draws : Type := mkDraws {
  u_base_price : Q;
  u_change_pct : Q;
  u_volatility : Q;
  k_volume : Z;
  k_market_cap : Z;
  u_pe_ratio : Q;
  u_dividend_yield : Q;
  u_52_week_high : Q;
  u_52_week_low : Q;
  u_open : Q;
  u_high : Q;
  u_low : Q;
  u_prev_close : Q
}.

(** [random.uniform(a, b)] is [a + (b - a) * random()]. *)
Definition uniform (a b u : Q) : Q := a + (b - a) * u.

(** [random.randint(a, b)] is [a + _randbelow(b - a + 1)]. *)
Definition randint (a b k : Z) : Z := (a + k)%Z.

(** What the generator promises of its values: [random()] lies in the unit
    interval, [_randbelow(n)] in [0, n). *)
Definition unit_interval (u : Q) : Prop := 0 <= u /\ u <= 1.

Definition below (n k : Z) : Prop := (0 <= k < n)%Z.

Definition valid_draws (d : draws) : Prop :=
  unit_interval (u_base_price d) /\ unit_interval (u_change_pct d)
  /\ unit_interval (u_volatility d)
  /\ below (50000000 - 1000000 + 1) (k_volume d)
  /\ below (100000000 - 10000000 + 1) (k_market_cap d)
  /\ unit_interval (u_pe_ratio d) /\ unit_interval (u_dividend_yield d)
  /\ unit_interval (u_52_week_high d) /\ unit_interval (u_52_week_low d)
  /\ unit_interval (u_open d) /\ unit_interval (u_high d)
  /\ unit_interval (u_low d) /\ unit_interval (u_prev_close d).

Module Quote.

(** The dictionary that [_generate_realistic_stock] returns. *)
Record t : Type := mk {
  symbol : string;
  company : string;
  current_price : Q;
  change : Q;
  change_percent : Q;
  volume : Z;
  market_cap : Q;
  pe_ratio : Q;
  dividend_yield : Q;
  volatility : Q;
  sector : string;
  risk_level : string;
  week52_high : Q;
  week52_low : Q;
  open : Q;
  high : Q;
  low : Q;
  prev_close : Q
}.

End Quote.

Definition _generate_realistic_stock (symbol : string) (d : draws) : Quote.t :=
  let '(min_price, max_price) := dict_get price_ranges symbol (100, 500) in
  let base_price := uniform min_price max_price (u_base_price d) in
  let change_pct := uniform (-5) 5 (u_change_pct d) in
  let volatility :=
    Qabs change_pct * uniform (15 # 10) (25 # 10) (u_volatility d) in
  Quote.mk
    symbol
    (symbol ++ " Ltd")
    base_price
    (base_price * (change_pct / 100))
    change_pct
    (randint 1000000 50000000 (k_volume d))
    (base_price * inject_Z (randint 10000000 100000000 (k_market_cap d)))
    (uniform 15 35 (u_pe_ratio d))
    (uniform 0 4 (u_dividend_yield d))
    volatility
    (_guess_sector symbol)
    (_calculate_risk volatility)
    (base_price * uniform (115 # 100) (125 # 100) (u_52_week_high d))
    (base_price * uniform (75 # 100) (85 # 100) (u_52_week_low d))
    (base_price * uniform (98 # 100) (102 # 100) (u_open d))
    (base_price * uniform 1 (103 # 100) (u_high d))
    (base_price * uniform (97 # 100) 1 (u_low d))
    (base_price * uniform (98 # 100) (102 # 100) (u_prev_close d)).

Local Close Scope string_scope.

(** ** _add_quality_scores (lines 207-219) *)

(** [Series.clip(lo, hi)]. *)
Definition clip (lo hi x : Q) : Q :=
  if Qltb x lo then lo else if Qltb hi x then hi else x.

(** [100 if 15 <= x <= 25 else 50]. *)
Definition pe_points (x : Q) : Q :=
  if Qleb 15 x && Qleb x 25 then 100 else 50.

Definition quality (mc_max : float64) (q : Quote.t) : float64 :=
  F.add
    (F.add
       (F.add (Fin (pe_points (Quote.pe_ratio q) * (3 # 10)))
              (Fin (clip 0 100 (Quote.dividend_yield q * 10) * (2 # 10))))
       (Fin (clip 0 100 (100 - Quote.volatility q * 5) * (3 # 10))))
    (F.mul (normalized (Quote.market_cap q) mc_max) (Fin (2 # 10))).

(** The frame with its new column [quality_score]: each row with its
    score.  An empty frame comes back as it is. *)
Definition _add_quality_scores (df : list Quote.t) : list (Quote.t * float64) :=
  match df with
  | [] => []
  | _ :: _ =>
      let mc_max := series_max (map Quote.market_cap df) in
      map (fun q => (q, quality mc_max q)) df
  end.

(** ** fetch_yahoo_data (lines 28-77) *)

(** [l[:k]]. *)
Definition slice_to {A : Type} (k : Z) (l : list A) : list A :=
  if (0 <=? k)%Z then firstn (Z.to_nat k) l
  else firstn (length l - Z.to_nat (- k)) l.

(** The [for i, symbol in enumerate(symbols)] loop; the [i]-th pass takes
    the [i]-th group of random numbers. *)
Fixpoint generate_all (rng : nat -> draws) (i : nat) (symbols : list string)
  : list Quote.t :=
  match symbols with
  | [] => []
  | symbol :: rest =>
      _generate_realistic_stock symbol (rng i) :: generate_all rng (S i) rest
  end.

Definition fetch_yahoo_data (rng : nat -> draws) (symbols : list string)
           (max_stocks : Z) : list (Quote.t * float64) :=
  let actual_fetch_count := Z.min max_stocks (Z.of_nat (length symbols)) in
  let symbols := slice_to actual_fetch_count symbols in
  let data := generate_all rng 0 symbols in
  match data with
  | [] => []
  | _ :: _ => _add_quality_scores data
  end.

(** The frame of [fetch_yahoo_data] as [select_top_stocks] sees it: the
    columns it uses, under the index [0, 1, ...] that [pd.DataFrame(data)]
    gives the rows.  A quality score that is not a finite number has no
    place in [row]: there is no frame then. *)
Fixpoint as_rows (i : nat) (df : list (Quote.t * float64)) : option frame :=
  match df with
  | [] => Some []
  | (q, Fin quality_score) :: rest =>
      option_map
        (cons (candidate (Z.of_nat i) (Quote.symbol q) (Quote.current_price q)
                         (Quote.market_cap q) (inject_Z (Quote.volume q))
                         quality_score))
        (as_rows (S i) rest)
  | _ :: _ => None
  end.

Definition as_frame (df : list (Quote.t * float64)) : option frame :=
  as_rows 0 df.

(** ** The callers

    [StockSelectionAgent.determine_market_cap_category]
    (src/agents/stock_selection.py, lines 29-59), which the workflow runs on
    the same amount before it selects, and the filter of
    [RecommendationAgent.generate] (src/agents/recommendation.py, lines
    35-39 and 58) on the frame [select_top_stocks] returns. *)

Local Open Scope string_scope.

Definition determine_market_cap_category (amount : Q) : list string :=
  if Qltb amount 10000 then [ "small" ]
  else if Qltb amount 50000 then [ "small"; "mid" ]
  else [ "large"; "mid"; "small" ].

Local Close Scope string_scope.

(** [stock_data[stock_data['shares_to_buy'] > 0]], or all of [stock_data]
    when that is empty. *)
Definition investable_stocks (stock_data : frame) : frame :=
  let kept := List.filter (fun r => Qltb 0 (shares_to_buy r)) stock_data in
  match kept with
  | [] => stock_data
  | _ :: _ => kept
  end.

(** Two rows that differ at most in [shares_to_buy] and
    [actual_investment]. *)
Definition same_but_shares (r r' : row) : Prop :=
  set_actual_investment (actual_investment r)
    (set_shares_to_buy (shares_to_buy r) r') = r.

(** A row as [fetch_yahoo_data] produces them. *)
Definition fetched_row (r : row) : Prop :=
  100 <= current_price r /\ 0 < market_cap r /\ 0 < volume r
  /\ 15 <= quality_score r /\ quality_score r <= 100.

(** [r'] is [r] with some whole number of shares added. *)
Definition topped_up (r r' : row) : Prop :=
  same_but_shares r r'
  /\ exists n : nat,
       shares_to_buy r' == shares_to_buy r + inject_Z (Z.of_nat n).

(** A share count that is a whole number, and one with two decimals. *)
Definition whole_number (x : Q) : Prop :=
  exists z : Z, (0 <= z)%Z /\ x == inject_Z z.

Definition two_decimals (x : Q) : Prop :=
  exists z : Z, x * 100 == inject_Z z.

(** ** Values used in the instances of the further properties *)

(** Random numbers in the middle of their ranges. *)
Definition middle_draws : draws :=
  mkDraws (1 # 2) (1 # 2) (1 # 2) 1000 1000 (1 # 2) (1 # 2) (1 # 2) (1 # 2)
          (1 # 2) (1 # 2) (1 # 2) (1 # 2).

Definition middle_rng (i : nat) : draws := middle_draws.

Local Open Scope string_scope.

Definition three_symbols : list string := [ "TCS"; "ITC"; "ZOMATO" ].

(** Two quotes at 35000 and one at 1000 without a quality score: the whole
    shares leave 30% of a budget of 100000 unspent, and only the third
    price fits into what is left. *)
Definition uneven : frame :=
  [ candidate 0 "A" 35000 1000 1000 50; candidate 1 "B" 35000 1000 1000 50;
    candidate 2 "C" 1000 1000 1000 0 ].

Local Close Scope string_scope.

(** [uneven] as the allocation step leaves it; its quality scores add up to
    100. *)
Definition uneven_allocated : frame :=
  map (fun r => set_allocation_percentage (quality_score r / 100 * 100) r)
      uneven.

(** * Properties *)

(** ** Comparisons *)

Lemma Qleb_true (x y : Q) : Qleb x y = true <-> x <= y.
Proof. unfold Qleb. apply Qle_bool_iff. Qed.

Lemma Qleb_false (x y : Q) : Qleb x y = false <-> y < x.
Proof.
  unfold Qleb. split; intros H.
  - apply Qnot_le_lt. intros Hle. apply Qle_bool_iff in Hle. congruence.
  - destruct (Qle_bool x y) eqn:E; [|reflexivity].
    apply Qle_bool_iff in E. exfalso. apply (Qlt_not_le _ _ H E).
Qed.

Lemma Qltb_true (x y : Q) : Qltb x y = true <-> x < y.
Proof.
  unfold Qltb. rewrite negb_true_iff. apply (Qleb_false y x).
Qed.

Lemma Qltb_false (x y : Q) : Qltb x y = false <-> y <= x.
Proof.
  unfold Qltb. rewrite negb_false_iff. apply (Qleb_true y x).
Qed.

Lemma Qeqb_true (x y : Q) : Qeqb x y = true <-> x == y.
Proof. unfold Qeqb. apply Qeq_bool_iff. Qed.

Lemma Qeqb_false (x y : Q) : Qeqb x y = false <-> ~ x == y.
Proof.
  unfold Qeqb. split; intros H.
  - intros E. apply Qeq_bool_iff in E. congruence.
  - destruct (Qeq_bool x y) eqn:E; [|reflexivity].
    apply Qeq_bool_iff in E. contradiction.
Qed.

Ltac qbool :=
  repeat match goal with
  | H : Qleb _ _ = true |- _ => apply Qleb_true in H
  | H : Qleb _ _ = false |- _ => apply Qleb_false in H
  | H : Qltb _ _ = true |- _ => apply Qltb_true in H
  | H : Qltb _ _ = false |- _ => apply Qltb_false in H
  | H : Qeqb _ _ = true |- _ => apply Qeqb_true in H
  | H : Qeqb _ _ = false |- _ => apply Qeqb_false in H
  end.

Lemma Qeq_le (x y : Q) : x == y -> x <= y.
Proof. intros ->. apply Qle_refl. Qed.

(** ** Integer conversions *)

Lemma int_of_floor (x : Q) : 0 <= x -> int_of x = Qfloor x.
Proof.
  intros H. unfold int_of. destruct (Qleb 0 x) eqn:E; [reflexivity|].
  qbool. exfalso. apply (Qlt_not_le _ _ E H).
Qed.

(** ** Sums *)

Lemma Qsum_const {A : Type} (c : Q) (l : list A) :
  Qsum (map (fun _ => c) l) == inject_Z (Z.of_nat (length l)) * c.
Proof.
  induction l as [|a l IH]; simpl.
  - unfold Qsum; simpl. ring.
  - change (Qsum (map (fun _ : A => c) (a :: l)))
      with (c + Qsum (map (fun _ : A => c) l)).
    rewrite IH. cbn [length].
    rewrite Nat2Z.inj_succ. unfold Z.succ. rewrite inject_Z_plus. ring.
Qed.

Lemma Qsum_scale {A : Type} (f : A -> Q) (a b : Q) (l : list A) :
  Qsum (map (fun x => f x / a * b) l) == Qsum (map f l) / a * b.
Proof.
  induction l as [|x l IH].
  - unfold Qsum; simpl. unfold Qdiv. ring.
  - change (f x / a * b + Qsum (map (fun x => f x / a * b) l)
            == (f x + Qsum (map f l)) / a * b).
    rewrite IH. unfold Qdiv. ring.
Qed.

Lemma Qsum_le {A : Type} (f g : A -> Q) (l : list A) :
  Forall (fun x => f x <= g x) l -> Qsum (map f l) <= Qsum (map g l).
Proof.
  induction 1 as [|x l Hx _ IH].
  - apply Qle_refl.
  - change (f x + Qsum (map f l) <= g x + Qsum (map g l)).
    apply Qplus_le_compat; assumption.
Qed.

Lemma Qsum_eq {A : Type} (f g : A -> Q) (l : list A) :
  Forall (fun x => f x == g x) l -> Qsum (map f l) == Qsum (map g l).
Proof.
  induction 1 as [|x l Hx _ IH].
  - reflexivity.
  - change (f x + Qsum (map f l) == g x + Qsum (map g l)).
    rewrite Hx, IH. reflexivity.
Qed.

Lemma Qsum_nonneg {A : Type} (f : A -> Q) (l : list A) :
  Forall (fun x => 0 <= f x) l -> 0 <= Qsum (map f l).
Proof.
  induction 1 as [|x l Hx _ IH].
  - apply Qle_refl.
  - change (0 <= f x + Qsum (map f l)).
    replace 0 with (0 + 0) by reflexivity.
    apply Qplus_le_compat; assumption.
Qed.

(** ** Share quantization at the regime boundary *)

Lemma calculate_shares_whole (amount : Q) (r : row) :
  10000 <= amount ->
  calculate_shares amount r =
    if Qleb (current_price r) 0 then 0
    else
      let exact := recommended_investment r / current_price r in
      if Qleb (1 # 2) exact then inject_Z (Z.max 1 (Qfloor exact)) else 0.
Proof.
  intros Ha. unfold calculate_shares.
  destruct (Qleb (current_price r) 0); [reflexivity|].
  apply Qltb_false in Ha. rewrite Ha. cbv zeta.
  destruct (Qleb (1 # 2) (recommended_investment r / current_price r)) eqn:E;
    [|reflexivity].
  qbool. rewrite int_of_floor; [reflexivity|].
  apply Qle_trans with (1 # 2); [discriminate | assumption].
Qed.

Lemma calculate_shares_fractional (amount : Q) (r : row) :
  amount < 10000 ->
  calculate_shares amount r =
    if Qleb (current_price r) 0 then 0
    else round2 (recommended_investment r / current_price r).
Proof.
  intros Ha. unfold calculate_shares.
  destruct (Qleb (current_price r) 0); [reflexivity|].
  apply Qltb_true in Ha. rewrite Ha. reflexivity.
Qed.

(** C7. With a budget of exactly 10000 every candidate is quantized in the
    whole-share regime: a candidate whose price is not positive gets 0
    shares, any other gets [max(1, floor(exact))] when
    [exact = recommended_investment / price] is at least 0.5 and 0 below
    that.  The two-decimal rounding of the small-amount regime is not
    used. *)
Theorem whole_share_regime_at_10000 (r : row) :
  calculate_shares 10000 r =
    if Qleb (current_price r) 0 then 0
    else
      let exact := recommended_investment r / current_price r in
      if Qleb (1 # 2) exact then inject_Z (Z.max 1 (Qfloor exact)) else 0.
Proof.
  apply calculate_shares_whole. apply Qle_refl.
Qed.

(** The two regimes differ at the boundary: 1.5 exact shares are cut to 1 at
    10000, and kept as 1.5 one unit below. *)
Example regimes_differ_at_boundary :
  let r := set_recommended_investment 1500 (candidate 0 "X" 1000 0 0 0) in
  calculate_shares 10000 r == 1 /\ calculate_shares 9999 r == 3 # 2.
Proof. split; vm_compute; reflexivity. Qed.

(** ** The worked scenario with budget 150 *)

(** C2, as stated: the allocator does not assign one share each. *)
Lemma budget_150_shares_are_not_whole :
  exists t, allocate 0 150 scenario_AB = Return t
            /\ ~ Forall2 Qeq (column shares_to_buy t) [1; 1].
Proof.
  eexists. split; [vm_compute; reflexivity|].
  intros H. inversion H as [|x y l l' Hxy _]; subst.
  vm_compute in Hxy. discriminate.
Qed.

(** C2, amended.  For A (price 100, quality 80) and B (price 50, quality 20)
    with budget 150 the target spends are 120 and 30; 150 is below 10000, so
    shares are rounded to two decimals, A: 1.2 and B: 0.6; the total spend
    is 150 and the utilization 100. *)
Theorem budget_150_scenario :
  exists t, allocate 0 150 scenario_AB = Return t
            /\ Forall2 Qeq (column recommended_investment t) [120; 30]
            /\ Forall2 Qeq (column shares_to_buy t) [6 # 5; 3 # 5]
            /\ total_actual t == 150
            /\ utilization 150 t == 100.
Proof.
  eexists. split; [vm_compute; reflexivity|].
  repeat split; repeat constructor; vm_compute; reflexivity.
Qed.

(** ** Allocation percentages *)

Lemma column_map {A : Type} (f : row -> A) (g : row -> row) (df : frame) :
  column f (map g df) = map (fun r => f (g r)) df.
Proof. unfold column. apply map_map. Qed.

Lemma nat_to_Q_nonzero (n : nat) : ~ inject_Z (Z.of_nat (S n)) == 0.
Proof.
  intros Hz.
  assert (Hz' : (Z.of_nat (S n) = 0)%Z)
    by (apply (proj1 (inject_Z_injective _ 0)); exact Hz).
  lia.
Qed.

Lemma assign_allocation_sum (top_stocks : frame) :
  top_stocks <> [] ->
  exists t,
    assign_allocation top_stocks = Return t
    /\ Qsum (column allocation_percentage t) == 100.
Proof.
  intros Hne. unfold assign_allocation.
  destruct (Qeqb (Qsum (column quality_score top_stocks)) 0) eqn:E; qbool.
  - destruct top_stocks as [|r0 rest]; [contradiction|].
    cbn [length]. eexists. split; [reflexivity|].
    rewrite column_map. cbn [allocation_percentage set_allocation_percentage].
    rewrite (Qsum_const _ (r0 :: rest)). cbn [length].
    field. apply nat_to_Q_nonzero.
  - eexists. split; [reflexivity|].
    rewrite column_map. cbn [allocation_percentage set_allocation_percentage].
    rewrite (Qsum_scale quality_score _ 100 top_stocks).
    fold (column quality_score top_stocks). field. exact E.
Qed.

(** C5. For a selected set that is not empty the allocation step returns,
    and the percentages it assigns sum to 100: each is [100 / N] when the
    quality scores sum to zero, and [quality_score / total * 100]
    otherwise. *)
Theorem allocation_percentages_sum_to_100 (top_stocks : frame) :
  top_stocks <> [] ->
  let total := Qsum (column quality_score top_stocks) in
  let n := inject_Z (Z.of_nat (length top_stocks)) in
  exists t,
    assign_allocation top_stocks = Return t
    /\ Qsum (column allocation_percentage t) == 100
    /\ (total == 0 ->
        Forall (fun r => allocation_percentage r == 100 / n) t)
    /\ (~ total == 0 ->
        Forall2 (fun r0 r =>
                   allocation_percentage r == quality_score r0 / total * 100)
                top_stocks t).
Proof.
  intros Hne total n.
  destruct (assign_allocation_sum top_stocks Hne) as (t & Hal & Hsum).
  exists t. split; [exact Hal|]. split; [exact Hsum|].
  unfold assign_allocation in Hal. fold total in Hal.
  destruct (Qeqb total 0) eqn:E; qbool.
  - destruct top_stocks as [|r0 rest]; [contradiction|].
    cbn [length] in Hal. injection Hal as <-. split.
    + intros _.
      change (Forall (fun r => allocation_percentage r == 100 / n)
                (map (set_allocation_percentage (100 / n)) (r0 :: rest))).
      apply List.Forall_map, List.Forall_forall. intros r _.
      cbn. reflexivity.
    + intros Hn. contradiction.
  - injection Hal as <-. split.
    + intros Hz. contradiction.
    + intros _. generalize total. clear. intros T.
      induction top_stocks as [|r l IH]; constructor.
      * cbn. reflexivity.
      * exact IH.
Qed.

(** ** The invariant actual_investment = shares_to_buy * current_price *)

Lemma quantize_consistent (amount : Q) (t : frame) :
  Forall consistent (quantize amount t).
Proof.
  unfold quantize, assign_actual. apply Forall_map, Forall_forall.
  intros r _. unfold consistent. cbn. reflexivity.
Qed.

Lemma add_one_share_consistent (idx : Z) (t : frame) :
  Forall consistent t ->
  Forall consistent (add_one_share idx t).
Proof.
  intros H. unfold add_one_share, loc_update. rewrite map_map. apply Forall_map.
  eapply Forall_impl; [exact H|]. intros r Hr. cbn beta.
  destruct (label r =? idx)%Z eqn:E.
  - cbn [label add_share set_shares_to_buy]. rewrite E.
    unfold consistent. cbn. reflexivity.
  - rewrite E. exact Hr.
Qed.

Lemma rebalance_step_consistent (amount total : Q) (t t' : frame) :
  Forall consistent t ->
  rebalance_step amount total t = Some t' ->
  Forall consistent t'.
Proof.
  unfold rebalance_step. intros H.
  destruct (idxmin (affordable_rows amount total t)) as [idx|];
    [|discriminate].
  intros [= <-]. apply add_one_share_consistent, H.
Qed.

Lemma rebalance_loop_consistent (fuel : nat) (amount : Q) :
  forall (total : Q) (t t' : frame),
    Forall consistent t ->
    rebalance_loop fuel amount total t = Return t' ->
    Forall consistent t'.
Proof.
  induction fuel as [|fuel IH]; intros total t t' Hc; cbn [rebalance_loop];
    (destruct (Qltb total (amount * (95 # 100)));
     [|intros [= <-]; exact Hc]);
    (destruct (rebalance_step amount total t) as [t1|] eqn:Es;
     [|intros [= <-]; exact Hc]).
  - discriminate.
  - apply IH. eapply rebalance_step_consistent; eauto.
Qed.

Lemma allocate_inv (fuel : nat) (amount : Q) (top_stocks t : frame) :
  allocate fuel amount top_stocks = Return t ->
  exists t0, assign_allocation top_stocks = Return t0
             /\ rebalance fuel amount (quantize amount t0) = Return t.
Proof.
  unfold allocate. destruct (assign_allocation top_stocks) as [t0| |];
    try discriminate.
  intros H. exists t0. split; [reflexivity | exact H].
Qed.


(** ** One pass of the rebalance loop *)

Lemma first_min_in (b : row) (rest : frame) : In (first_min b rest) (b :: rest).
Proof.
  revert b. induction rest as [|r rest IH]; intros b; cbn [first_min].
  - left. reflexivity.
  - destruct (IH (if Qltb (current_price r) (current_price b) then r else b))
      as [E|Hin].
    + destruct (Qltb (current_price r) (current_price b));
        rewrite <- E; [right; left | left]; reflexivity.
    + right. right. exact Hin.
Qed.

Lemma first_min_le (b : row) (rest : frame) :
  forall r, In r (b :: rest) ->
            current_price (first_min b rest) <= current_price r.
Proof.
  revert b. induction rest as [|x rest IH]; intros b r Hr; cbn [first_min].
  - destruct Hr as [<-|[]]. apply Qle_refl.
  - set (b' := if Qltb (current_price x) (current_price b) then x else b).
    assert (Hb : current_price b' <= current_price b
                 /\ current_price b' <= current_price x).
    { subst b'. destruct (Qltb (current_price x) (current_price b)) eqn:E;
        qbool; split; try apply Qle_refl; try assumption.
      apply Qlt_le_weak, E. }
    destruct Hr as [<-|[<-|Hr]].
    + eapply Qle_trans; [apply IH; left; reflexivity | apply Hb].
    + eapply Qle_trans; [apply IH; left; reflexivity | apply Hb].
    + apply IH. right. exact Hr.
Qed.

Lemma idxmin_some (df : frame) (idx : Z) :
  idxmin df = Some idx ->
  exists r, In r df /\ label r = idx
            /\ forall r', In r' df -> current_price r <= current_price r'.
Proof.
  destruct df as [|b rest]; [discriminate|]. cbn [idxmin]. intros [= <-].
  exists (first_min b rest). split; [apply first_min_in|].
  split; [reflexivity | apply first_min_le].
Qed.

Lemma affordable_rows_in (amount total : Q) (t : frame) (r : row) :
  In r (affordable_rows amount total t)
  <-> In r t /\ current_price r <= amount - total.
Proof.
  unfold affordable_rows. rewrite List.filter_In, Qleb_true. reflexivity.
Qed.

Lemma add_one_share_label (idx : Z) (t : frame) :
  column label (add_one_share idx t) = column label t.
Proof.
  unfold add_one_share, loc_update, column. rewrite !map_map.
  apply map_ext. intros r.
  destruct (label r =? idx)%Z eqn:E; cbn; rewrite ?E; reflexivity.
Qed.

Lemma add_one_share_price (idx : Z) (t : frame) :
  column current_price (add_one_share idx t) = column current_price t.
Proof.
  unfold add_one_share, loc_update, column. rewrite !map_map.
  apply map_ext. intros r.
  destruct (label r =? idx)%Z eqn:E; cbn; rewrite ?E; reflexivity.
Qed.

Lemma add_one_share_absent (idx : Z) (t : frame) :
  ~ In idx (column label t) -> add_one_share idx t = t.
Proof.
  unfold add_one_share, loc_update. rewrite map_map.
  induction t as [|r t IH]; intros Hn; [reflexivity|].
  cbn [map]. f_equal.
  - destruct (label r =? idx)%Z eqn:E; [|rewrite E; reflexivity].
    apply Z.eqb_eq in E. exfalso. apply Hn. left. exact E.
  - apply IH. intros Hin. apply Hn. right. exact Hin.
Qed.

Lemma total_actual_cons (r : row) (t : frame) :
  total_actual (r :: t) = actual_investment r + total_actual t.
Proof. reflexivity. Qed.

Lemma add_one_share_cons (idx : Z) (r : row) (t : frame) :
  add_one_share idx (r :: t)
  = (if (label r =? idx)%Z then recompute_actual (add_share r) else r)
      :: add_one_share idx t.
Proof.
  unfold add_one_share, loc_update. cbn [map]. f_equal.
  destruct (label r =? idx)%Z eqn:E; cbn; rewrite ?E; reflexivity.
Qed.

(** With unique labels, [add_one_share] raises the total by the price of
    the row it names. *)
Lemma add_one_share_total (r : row) (t : frame) :
  List.NoDup (column label t) ->
  Forall consistent t ->
  In r t ->
  total_actual (add_one_share (label r) t)
  == total_actual t + current_price r.
Proof.
  induction t as [|h t IH]; intros Hnd Hc Hin; [destruct Hin|].
  cbn [column map] in Hnd. apply List.NoDup_cons_iff in Hnd as [Hh Hnd].
  apply Forall_cons_iff in Hc as [Hch Hc].
  rewrite add_one_share_cons, !total_actual_cons.
  destruct (label h =? label r)%Z eqn:E.
  - apply Z.eqb_eq in E.
    assert (Hr : r = h).
    { destruct Hin as [Hin|Hin]; [symmetry; exact Hin|].
      exfalso. apply Hh. rewrite E. apply in_map. exact Hin. }
    subst h. rewrite add_one_share_absent by exact Hh.
    unfold consistent in Hch. cbn. rewrite Hch. ring.
  - apply Z.eqb_neq in E.
    destruct Hin as [Hin|Hin]; [subst h; contradiction|].
    rewrite IH by assumption. ring.
Qed.

Lemma rebalance_step_some (amount total : Q) (t t' : frame) :
  rebalance_step amount total t = Some t' ->
  exists r, In r t
            /\ current_price r <= amount - total
            /\ (forall r', In r' t -> current_price r' <= amount - total ->
                           current_price r <= current_price r')
            /\ t' = add_one_share (label r) t.
Proof.
  unfold rebalance_step.
  destruct (idxmin (affordable_rows amount total t)) as [idx|] eqn:E;
    [|discriminate].
  intros [= <-]. apply idxmin_some in E as (r & Hin & <- & Hmin).
  apply affordable_rows_in in Hin as [Hin Hle].
  exists r. repeat split; try assumption.
  intros r' Hr' Hle'. apply Hmin. apply affordable_rows_in. split; assumption.
Qed.

(** ** The rebalance loop under a bound on the prices *)

Lemma in_column {A : Type} (f : row -> A) (r : row) (t : frame) :
  In r t -> In (f r) (column f t).
Proof. apply in_map. Qed.

Lemma inject_Z_succ (n : nat) :
  inject_Z (Z.of_nat (S n)) == inject_Z (Z.of_nat n) + 1.
Proof.
  rewrite Nat2Z.inj_succ. unfold Z.succ. rewrite inject_Z_plus. reflexivity.
Qed.

Section PriceBound.

(** A lower bound of the prices, such as the smallest one. *)
Variable m : Q.

Lemma rebalance_loop_returns :
  forall (fuel : nat) (amount : Q) (t : frame),
    List.NoDup (column label t) ->
    Forall consistent t ->
    Forall (fun p => m <= p) (column current_price t) ->
    amount - total_actual t < (inject_Z (Z.of_nat fuel) + 1) * m ->
    exists t',
      rebalance_loop fuel amount (total_actual t) t = Return t'
      /\ (total_actual t <= amount -> total_actual t' <= amount).
Proof.
  induction fuel as [|fuel IH]; intros amount t Hnd Hc Hp Hfuel;
    cbn [rebalance_loop];
    (destruct (Qltb (total_actual t) (amount * (95 # 100)));
     [|exists t; split; [reflexivity | tauto]]);
    (destruct (rebalance_step amount (total_actual t) t) as [t1|] eqn:Es;
     [|exists t; split; [reflexivity | tauto]]);
    apply rebalance_step_some in Es as (r & Hin & Hle & _ & ->);
    assert (Hm : m <= current_price r)
      by (rewrite List.Forall_forall in Hp; apply Hp, in_column, Hin).
  - exfalso. change (inject_Z (Z.of_nat 0)) with 0 in Hfuel. lra.
  - pose proof (add_one_share_total r t Hnd Hc Hin) as Ht.
    destruct (IH amount (add_one_share (label r) t)) as (t' & Hrun & Hb).
    + rewrite add_one_share_label. exact Hnd.
    + apply add_one_share_consistent, Hc.
    + rewrite add_one_share_price. exact Hp.
    + rewrite Ht. rewrite inject_Z_succ in Hfuel. lra.
    + exists t'. split; [exact Hrun|].
      intros _. apply Hb. rewrite Ht. lra.
Qed.

End PriceBound.

Lemma rebalance_loop_more_fuel (amount : Q) :
  forall (n n' : nat) (total : Q) (t t' : frame),
    (n <= n')%nat ->
    rebalance_loop n amount total t = Return t' ->
    rebalance_loop n' amount total t = Return t'.
Proof.
  induction n as [|n IH]; intros n' total t t' Hle;
    destruct n' as [|n']; cbn [rebalance_loop];
    destruct (Qltb total (amount * (95 # 100))); try (intros H; exact H);
    destruct (rebalance_step amount total t) as [t1|];
    try (intros H; exact H); try discriminate.
  - lia.
  - apply IH. lia.
Qed.

(** ** What allocation and quantization keep and produce *)

Lemma assign_allocation_rows (top_stocks t : frame) :
  assign_allocation top_stocks = Return t ->
  exists f : row -> Q, t = map (fun r => set_allocation_percentage (f r) r)
                               top_stocks.
Proof.
  unfold assign_allocation. destruct (Qeqb _ 0).
  - destruct (length top_stocks); [discriminate|].
    intros [= <-]. eexists (fun _ => _). reflexivity.
  - intros [= <-]. eexists (fun r => _). reflexivity.
Qed.

Lemma assign_allocation_label (top_stocks t : frame) :
  assign_allocation top_stocks = Return t ->
  column label t = column label top_stocks.
Proof.
  intros H. apply assign_allocation_rows in H as [f ->].
  rewrite column_map. reflexivity.
Qed.

Lemma assign_allocation_price (top_stocks t : frame) :
  assign_allocation top_stocks = Return t ->
  column current_price t = column current_price top_stocks.
Proof.
  intros H. apply assign_allocation_rows in H as [f ->].
  rewrite column_map. reflexivity.
Qed.


Lemma quantize_rows (amount : Q) (t : frame) :
  quantize amount t = map (quantize_row amount) t.
Proof.
  unfold quantize, assign_actual, assign_shares, assign_recommended.
  rewrite !map_map. reflexivity.
Qed.

Lemma quantize_label (amount : Q) (t : frame) :
  column label (quantize amount t) = column label t.
Proof. rewrite quantize_rows, column_map. reflexivity. Qed.

Lemma quantize_price (amount : Q) (t : frame) :
  column current_price (quantize amount t) = column current_price t.
Proof. rewrite quantize_rows, column_map. reflexivity. Qed.

Lemma Qsum_recommended (amount : Q) (t : frame) :
  Qsum (map (fun r => amount * allocation_percentage r / 100) t)
  == amount * Qsum (column allocation_percentage t) / 100.
Proof.
  unfold column. induction t as [|r t IH].
  - unfold Qsum; cbn [map fold_right]. unfold Qdiv. ring.
  - change (amount * allocation_percentage r / 100
            + Qsum (map (fun r => amount * allocation_percentage r / 100) t)
            == amount * (allocation_percentage r
                         + Qsum (map allocation_percentage t)) / 100).
    rewrite IH. unfold Qdiv. ring.
Qed.


(** ** Existence of a price bound and of enough fuel *)



Lemma rebalance_returns (m : Q) (fuel : nat) (amount : Q) (t : frame) :
  List.NoDup (column label t) ->
  Forall consistent t ->
  Forall (fun p => m <= p) (column current_price t) ->
  amount - total_actual t < (inject_Z (Z.of_nat fuel) + 1) * m ->
  exists t',
    rebalance fuel amount t = Return t'
    /\ (total_actual t <= amount -> total_actual t' <= amount).
Proof.
  intros Hnd Hc Hp Hf. unfold rebalance.
  destruct (Qltb (total_actual t) (amount * (8 # 10))).
  - apply (rebalance_loop_returns m); assumption.
  - exists t. split; [reflexivity | tauto].
Qed.

Lemma rebalance_more_fuel (amount : Q) (n n' : nat) (t t' : frame) :
  (n <= n')%nat ->
  rebalance n amount t = Return t' ->
  rebalance n' amount t = Return t'.
Proof.
  unfold rebalance. intros Hle.
  destruct (Qltb (total_actual t) (amount * (8 # 10))); [|tauto].
  apply rebalance_loop_more_fuel, Hle.
Qed.

(** ** Spend against the budget *)



(** ** Termination of the rebalance loop *)

Lemma round2_nonneg (x : Q) : 0 <= x -> 0 <= round2 x.
Proof.
  intros Hx. unfold round2.
  assert (Hf : (0 <= Qfloor (x * 100))%Z).
  { change 0%Z with (Qfloor 0). apply Qfloor_resp_le.
    apply Qmult_le_0_compat; [exact Hx | discriminate]. }
  assert (Hr : (0 <= round_half_even (x * 100))%Z).
  { unfold round_half_even.
    repeat match goal with |- context [if ?b then _ else _] => destruct b end;
      lia. }
  apply Qle_shift_div_l; [reflexivity|].
  rewrite Qmult_0_l. change 0 with (inject_Z 0). rewrite <- Zle_Qle. exact Hr.
Qed.

Lemma calculate_shares_nonneg (amount : Q) (r : row) :
  0 <= recommended_investment r -> 0 <= calculate_shares amount r.
Proof.
  intros Hrec. unfold calculate_shares.
  destruct (Qleb (current_price r) 0) eqn:Ep; [apply Qle_refl|]. qbool.
  assert (He : 0 <= recommended_investment r / current_price r).
  { apply Qle_shift_div_l; [exact Ep|]. rewrite Qmult_0_l. exact Hrec. }
  destruct (Qltb amount 10000).
  - apply round2_nonneg, He.
  - destruct (Qleb (1 # 2) _); [|apply Qle_refl].
    change 0 with (inject_Z 0). rewrite <- Zle_Qle. lia.
Qed.

Lemma assign_allocation_nonneg (top_stocks t : frame) :
  Forall (fun r => 0 <= quality_score r) top_stocks ->
  assign_allocation top_stocks = Return t ->
  Forall (fun r => 0 <= allocation_percentage r) t.
Proof.
  intros Hq. unfold assign_allocation.
  destruct (Qeqb (Qsum (column quality_score top_stocks)) 0) eqn:E; qbool.
  - destruct (length top_stocks) as [|n] eqn:El; [discriminate|].
    intros [= <-]. apply List.Forall_map, List.Forall_forall. intros r _.
    cbn. apply Qle_shift_div_l.
    + change 0 with (inject_Z 0). rewrite <- Zlt_Qlt. lia.
    + rewrite Qmult_0_l. discriminate.
  - intros [= <-]. apply List.Forall_map.
    assert (Hs : 0 <= Qsum (column quality_score top_stocks))
      by (apply Qsum_nonneg, Hq).
    eapply Forall_impl; [exact Hq|]. intros r Hr. cbn.
    apply Qmult_le_0_compat; [|discriminate].
    apply Qle_shift_div_l; [lra|]. rewrite Qmult_0_l. exact Hr.
Qed.

Lemma quantize_total_nonneg (amount : Q) (t : frame) :
  0 <= amount ->
  Forall (fun r => 0 <= allocation_percentage r) t ->
  0 <= total_actual (quantize amount t).
Proof.
  intros Ha Hal. unfold total_actual. rewrite quantize_rows, column_map.
  apply Qsum_nonneg. eapply Forall_impl; [exact Hal|]. intros r Hr.
  cbn.
  set (r1 := set_recommended_investment _ r).
  assert (Hs : 0 <= calculate_shares amount r1).
  { apply calculate_shares_nonneg. subst r1. cbn.
    apply Qle_shift_div_l; [reflexivity|]. rewrite Qmult_0_l.
    apply Qmult_le_0_compat; assumption. }
  destruct (Qlt_le_dec 0 (current_price r)) as [Hp|Hp].
  - apply Qmult_le_0_compat; [exact Hs | apply Qlt_le_weak, Hp].
  - unfold calculate_shares. subst r1. cbn [current_price
      set_recommended_investment].
    apply Qleb_true in Hp. rewrite Hp. rewrite Qmult_0_l. apply Qle_refl.
Qed.

(** Each pass that adds a share raises the total by the price of the
    cheapest affordable row. *)
Lemma rebalance_step_increase (amount : Q) (t t' : frame) :
  List.NoDup (column label t) ->
  Forall consistent t ->
  rebalance_step amount (total_actual t) t = Some t' ->
  exists r, In r t
            /\ current_price r <= amount - total_actual t
            /\ (forall r', In r' t ->
                           current_price r' <= amount - total_actual t ->
                           current_price r <= current_price r')
            /\ total_actual t' == total_actual t + current_price r.
Proof.
  intros Hnd Hc Hs.
  apply rebalance_step_some in Hs as (r & Hin & Hle & Hmin & ->).
  exists r. repeat split; try assumption.
  apply add_one_share_total; assumption.
Qed.

(** With prices bounded below by [m > 0], quality scores that are not
    negative and distinct labels, the loop ends after at most
    [floor (amount / m)] passes that add a share. *)
Lemma rebalance_terminates (amount m : Q) (top_stocks t0 : frame) :
  0 < amount ->
  0 < m ->
  Forall (fun r => m <= current_price r) top_stocks ->
  Forall (fun r => 0 <= quality_score r) top_stocks ->
  List.NoDup (column label top_stocks) ->
  assign_allocation top_stocks = Return t0 ->
  exists t,
    rebalance (Z.to_nat (Qfloor (amount / m))) amount (quantize amount t0)
    = Return t.
Proof.
  intros Ha Hm Hp Hq Hnd Hal.
  destruct (rebalance_returns m (Z.to_nat (Qfloor (amount / m))) amount
              (quantize amount t0)) as (t & Hrun & _).
  - rewrite quantize_label, (assign_allocation_label _ _ Hal). exact Hnd.
  - apply quantize_consistent.
  - rewrite quantize_price, (assign_allocation_price _ _ Hal).
    unfold column. apply List.Forall_map. exact Hp.
  - assert (H0 : 0 <= total_actual (quantize amount t0)).
    { apply quantize_total_nonneg; [apply Qlt_le_weak, Ha|].
      eapply assign_allocation_nonneg; eassumption. }
    assert (Hf : (0 <= Qfloor (amount / m))%Z).
    { change 0%Z with (Qfloor 0). apply Qfloor_resp_le.
      apply Qle_shift_div_l; [exact Hm|]. rewrite Qmult_0_l.
      apply Qlt_le_weak, Ha. }
    rewrite Z2Nat.id by exact Hf.
    assert (H1 : amount / m < inject_Z (Qfloor (amount / m)) + 1).
    { rewrite <- (inject_Z_plus _ 1). apply Qlt_floor. }
    apply (Qmult_lt_compat_r _ _ m Hm) in H1.
    assert (E : amount / m * m == amount) by (field; lra).
    rewrite E in H1. lra.
  - exists t. exact Hrun.
Qed.

(** ** A candidate without a price *)

Lemma unpriced_loop_never_ends (fuel : nat) :
  forall (total : Q) (r : row),
    current_price r = 0 ->
    total <= 0 ->
    rebalance_loop fuel 100 total [r] = OutOfFuel.
Proof.
  induction fuel as [|fuel IH]; intros total r Hp Ht; cbn [rebalance_loop].
  all: assert (E1 : Qltb total (100 * (95 # 100)) = true)
         by (apply Qltb_true; lra); rewrite E1.
  all: unfold rebalance_step, affordable_rows; cbn [List.filter].
  all: assert (E2 : Qleb (current_price r) (100 - total) = true)
         by (apply Qleb_true; rewrite Hp; lra); rewrite E2.
  all: cbn [idxmin first_min].
  - reflexivity.
  - unfold add_one_share, loc_update. cbn [map]. rewrite Z.eqb_refl.
    cbn [label add_share set_shares_to_buy]. rewrite Z.eqb_refl.
    apply IH.
    + cbn. exact Hp.
    + unfold total_actual, column, Qsum. cbn. rewrite Hp. apply Qeq_le.
      ring.
Qed.

Lemma allocate_unpriced_never_returns (fuel : nat) (r : row) :
  current_price r = 0 -> allocate fuel 100 [r] = OutOfFuel.
Proof.
  intros Hp. unfold allocate.
  destruct (assign_allocation [r]) as [t| |] eqn:Eal.
  - apply assign_allocation_rows in Eal as [f ->].
    unfold rebalance, quantize, assign_actual, assign_shares,
      assign_recommended. cbn [map].
    set (r3 := set_actual_investment _ _).
    assert (Hp3 : current_price r3 = 0) by exact Hp.
    assert (Ha3 : actual_investment r3 == 0).
    { subst r3. cbn. rewrite Hp. ring. }
    assert (Ht : total_actual [r3] == 0).
    { unfold total_actual, column, Qsum. cbn [map fold_right].
      rewrite Ha3. ring. }
    assert (E : Qltb (total_actual [r3]) (100 * (8 # 10)) = true)
      by (apply Qltb_true; rewrite Ht; reflexivity).
    rewrite E. apply unpriced_loop_never_ends; [exact Hp3|].
    rewrite Ht. apply Qle_refl.
  - exfalso. unfold assign_allocation in Eal.
    destruct (Qeqb _ 0); discriminate.
  - reflexivity.
Qed.

(** ** Popularity when a maximum is zero *)

Lemma Qmax_ge_l (x y : Q) : x <= Qmax x y.
Proof.
  unfold Qmax. destruct (Qleb x y) eqn:E; qbool; [exact E | apply Qle_refl].
Qed.

Lemma Qmax_ge_r (x y : Q) : y <= Qmax x y.
Proof.
  unfold Qmax. destruct (Qleb x y) eqn:E; qbool;
    [apply Qle_refl | apply Qlt_le_weak, E].
Qed.

Lemma fold_left_Qmax_ge (l : list Q) :
  forall x, x <= fold_left Qmax l x
            /\ Forall (fun y => y <= fold_left Qmax l x) l.
Proof.
  induction l as [|a l IH]; intros x; cbn [fold_left].
  - split; [apply Qle_refl | constructor].
  - destruct (IH (Qmax x a)) as [H1 H2]. split.
    + eapply Qle_trans; [apply Qmax_ge_l | exact H1].
    + constructor; [|exact H2].
      eapply Qle_trans; [apply Qmax_ge_r | exact H1].
Qed.

Lemma Qmaximum_ge (l : list Q) (mx : Q) :
  Qmaximum l = Some mx -> Forall (fun y => y <= mx) l.
Proof.
  destruct l as [|x l]; [discriminate|]. cbn [Qmaximum]. intros [= <-].
  destruct (fold_left_Qmax_ge l x) as [H1 H2]. constructor; assumption.
Qed.

Lemma div_zero_by_zero (x mx : Q) :
  x == 0 -> mx == 0 -> F.div (Fin x) (Fin mx) = NaN.
Proof.
  intros Hx Hm. unfold F.div. apply Qeqb_true in Hm. rewrite Hm.
  unfold F.sgn. symmetry in Hx. apply Qeq_alt in Hx. rewrite Hx. reflexivity.
Qed.

Lemma add_nan_r (x : float64) : F.add x NaN = NaN.
Proof. destruct x; reflexivity. Qed.

Lemma popularity_nan_l (mc_max vol_max : float64) (r : row) :
  normalized (market_cap r) mc_max = NaN ->
  popularity mc_max vol_max r = NaN.
Proof. unfold popularity. intros ->. reflexivity. Qed.

Lemma popularity_nan_r (mc_max vol_max : float64) (r : row) :
  normalized (volume r) vol_max = NaN ->
  popularity mc_max vol_max r = NaN.
Proof.
  unfold popularity. intros ->. cbn [F.mul]. rewrite add_nan_r. reflexivity.
Qed.

Lemma normalized_zero_max (c : normalized_column) (df : frame) :
  Forall (fun r => 0 <= column_of c r) df ->
  max_is_zero (column (column_of c) df) ->
  Forall (fun r => normalized (column_of c r)
                              (series_max (column (column_of c) df)) = NaN)
         df.
Proof.
  intros Hn Hz. unfold max_is_zero in Hz. unfold series_max.
  destruct (Qmaximum (column (column_of c) df)) as [mx|] eqn:E; [|contradiction].
  apply Qmaximum_ge in E. unfold column in E. rewrite List.Forall_map in E.
  rewrite List.Forall_forall in *. intros r Hr.
  unfold normalized. rewrite div_zero_by_zero; [reflexivity | | exact Hz].
  specialize (Hn r Hr). specialize (E r Hr). cbn beta in E. lra.
Qed.

(** C8, as stated: with both market capitalizations 0 the normalized term is
    not 0, and the popularity scores are not finite numbers. *)
Lemma zero_caps_popularity_is_nan :
  max_is_zero (column market_cap zero_caps)
  /\ Forall (fun r => normalized (market_cap r)
                        (series_max (column market_cap zero_caps)) = NaN)
            zero_caps
  /\ ~ Forall (fun r => F.is_finite (popularity_score r) = true)
              (assign_popularity zero_caps).
Proof.
  split; [vm_compute; reflexivity|]. split.
  - repeat constructor.
  - intros H. inversion H as [|r l Hr _]; subst.
    vm_compute in Hr. discriminate.
Qed.

(** C8, amended.  When the largest market capitalization (respectively the
    largest traded volume) of a frame is zero and none is negative, the
    division by the maximum is a division of zero by zero: the normalized
    term is NaN for every candidate, not 0, and so is every popularity
    score.  No exception is raised. *)
Theorem zero_maximum_gives_nan (c : normalized_column) (df : frame) :
  Forall (fun r => 0 <= column_of c r) df ->
  max_is_zero (column (column_of c) df) ->
  Forall (fun r => normalized (column_of c r)
                              (series_max (column (column_of c) df)) = NaN)
         df
  /\ Forall (fun r => popularity_score r = NaN) (assign_popularity df).
Proof.
  intros Hn Hz. pose proof (normalized_zero_max c df Hn Hz) as H.
  split; [exact H|].
  unfold assign_popularity. apply List.Forall_map.
  eapply Forall_impl; [exact H|]. intros r Hr.
  cbn [popularity_score set_popularity_score].
  destruct c; cbn [column_of] in Hr.
  - apply popularity_nan_l, Hr.
  - apply popularity_nan_r, Hr.
Qed.

(** ** The caller's frames *)

Lemma keeps_ret {A : Type} (s0 : store) (a : A) (post : A -> Prop) :
  post a -> keeps s0 (ret a) post.
Proof. intros H s Hs. split; [exact Hs | exact H]. Qed.

Lemma keeps_bind {A B : Type} (s0 : store) (m : M A) (k : A -> M B)
      (mid : A -> Prop) (post : B -> Prop) :
  keeps s0 m mid ->
  (forall a, mid a -> keeps s0 (k a) post) ->
  keeps s0 (bind m k) post.
Proof.
  intros Hm Hk s Hs. unfold bind. destruct (Hm s Hs) as [H1 H2].
  destruct (m s) as [[a|e|] s1]; cbn [fst snd] in *.
  - apply (Hk a H2 s1 H1).
  - split; [exact H1 | exact I].
  - split; [exact H1 | exact I].
Qed.

Lemma keeps_lift {A : Type} (s0 : store) (o : outcome A) :
  keeps s0 (lift o) (fun _ => True).
Proof. intros s Hs. split; [exact Hs|]. cbn. destruct o; exact I. Qed.

Lemma keeps_get (s0 : store) (r : nat) : keeps s0 (df_get r) (fun _ => True).
Proof.
  intros s Hs. unfold df_get.
  destruct (s !! r); cbn [fst snd]; split; auto.
Qed.

Lemma keeps_new (s0 : store) (d : frame) :
  keeps s0 (df_new d) (fun r => s0 !! r = None).
Proof.
  intros s Hs. unfold df_new. cbn [fst snd].
  assert (Hf : s !! fresh (dom s) = None).
  { apply not_elem_of_dom. apply is_fresh. }
  assert (Hf0 : s0 !! fresh (dom s) = None).
  { destruct (s0 !! fresh (dom s)) as [d0|] eqn:E; [|reflexivity].
    rewrite (lookup_weaken _ _ _ _ E Hs) in Hf. discriminate. }
  split; [|exact Hf0].
  apply insert_subseteq_r; assumption.
Qed.

Lemma keeps_copy (s0 : store) (r : nat) :
  keeps s0 (df_copy r) (fun r' => s0 !! r' = None).
Proof.
  unfold df_copy. eapply keeps_bind; [apply keeps_get|].
  intros d _. apply keeps_new.
Qed.

Lemma keeps_modify (s0 : store) (r : nat) (f : frame -> frame) :
  s0 !! r = None -> keeps s0 (df_modify r f) (fun _ => True).
Proof.
  intros Hr s Hs. unfold df_modify.
  destruct (s !! r); cbn [fst snd]; split; auto.
  apply insert_subseteq_r; assumption.
Qed.

Lemma keeps_while (fuel0 : nat) (amount : Q) (s0 : store) (top : nat) :
  s0 !! top = None ->
  forall total, keeps s0 (rebalance_while fuel0 amount total top)
                      (fun _ => True).
Proof.
  intros Htop. induction fuel0 as [|fuel IH]; intros total;
    cbn [rebalance_while];
    (destruct (Qltb total (amount * (95 # 100)));
     [|apply keeps_ret; exact I]);
    (eapply keeps_bind; [apply keeps_get|]); intros t _;
    (destruct (idxmin (affordable_rows amount total t));
     [|apply keeps_ret; exact I]).
  - apply keeps_lift.
  - eapply keeps_bind; [apply keeps_modify, Htop|]. intros _ _.
    eapply keeps_bind; [apply keeps_modify, Htop|]. intros _ _.
    eapply keeps_bind; [apply keeps_get|]. intros t' _.
    apply IH.
Qed.

Lemma select_top_stocks_dangling (sort_values : frame -> frame) (fuel : nat)
      (df : nat) (amount : Q) (count : Z) (s : store) :
  s !! df = None ->
  select_top_stocks sort_values fuel df amount count s
  = (Raise DanglingReference, s).
Proof.
  intros H. unfold select_top_stocks, bind, df_get.
  destruct (s !! df) as [d|]; [discriminate | reflexivity].
Qed.

Lemma keeps_select_top_stocks (sort_values : frame -> frame) (fuel : nat)
      (df : nat) (amount : Q) (count : Z) (s0 : store) :
  keeps s0 (select_top_stocks sort_values fuel df amount count)
        (fun _ => True).
Proof.
  unfold select_top_stocks.
  eapply keeps_bind; [apply keeps_get|]. intros d _.
  destruct d as [|r0 d]; [apply keeps_ret; exact I|].
  eapply keeps_bind; [apply keeps_copy|]. intros df1 Hdf1.
  eapply keeps_bind; [apply keeps_modify, Hdf1|]. intros _ _.
  eapply keeps_bind; [apply keeps_get|]. intros d1 _.
  eapply keeps_bind; [apply keeps_new|]. intros df2 Hdf2.
  eapply keeps_bind; [apply keeps_get|]. intros d2 _.
  eapply keeps_bind; [apply keeps_new|]. intros hd Hhd.
  eapply keeps_bind; [apply keeps_copy|]. intros top Htop.
  eapply keeps_bind; [apply keeps_get|]. intros t _.
  eapply keeps_bind; [apply keeps_lift|]. intros t1 _.
  do 4 (eapply keeps_bind; [apply keeps_modify, Htop|]; intros _ _).
  eapply keeps_bind; [apply keeps_get|]. intros t2 _.
  eapply keeps_bind; [|intros _ _; apply keeps_ret; exact I].
  destruct (Qltb (total_actual t2) (amount * (8 # 10))).
  - apply keeps_while, Htop.
  - apply keeps_ret. exact I.
Qed.

(** C10. Whatever the frame, the budget and the count, and whether the call
    returns, raises or runs on, every frame the caller's store held before
    the call is still there unchanged after it, the input frame among them:
    the function writes only to the frames it creates. *)
Theorem input_frame_unchanged (sort_values : frame -> frame) (fuel : nat)
        (df : nat) (amount : Q) (count : Z) (s : store) :
  let s' := (select_top_stocks sort_values fuel df amount count s).2 in
  s ⊆ s' /\ s' !! df = s !! df.
Proof.
  cbv zeta.
  destruct (keeps_select_top_stocks sort_values fuel df amount count s s)
    as [Hsub _]; [reflexivity|].
  split; [exact Hsub|].
  destruct (s !! df) as [d|] eqn:E.
  - apply (lookup_weaken _ _ _ _ E Hsub).
  - rewrite select_top_stocks_dangling by exact E. exact E.
Qed.

(** ** The empty frame *)

(** C3, as stated: on a store whose frame 0 is empty the call returns, with
    the reference it was given; nothing is raised. *)
Lemma empty_frame_does_not_raise :
  select_top_stocks (fun d => d) 0 0 1000 10 store_with_empty_frame
  = (Return 0%nat, store_with_empty_frame).
Proof. reflexivity. Qed.

(** C3, amended.  For an empty frame the function returns normally: its
    result is the very frame it was given, and the store is as before. *)
Theorem empty_frame_is_returned (sort_values : frame -> frame) (fuel : nat)
        (df : nat) (amount : Q) (count : Z) (s : store) :
  s !! df = Some [] ->
  select_top_stocks sort_values fuel df amount count s = (Return df, s).
Proof.
  intros H. unfold select_top_stocks, bind, df_get.
  destruct (s !! df) as [d|]; [|discriminate].
  injection H as ->. reflexivity.
Qed.

(** ** The function in terms of the computation on frames *)

Lemma bind_get {B : Type} (r : nat) (k : frame -> M B) (s : store) (d : frame) :
  s !! r = Some d -> bind (df_get r) k s = k d s.
Proof.
  intros H. unfold bind, df_get.
  destruct (s !! r) as [d'|]; [|discriminate]. injection H as ->. reflexivity.
Qed.

Lemma bind_new {B : Type} (d : frame) (k : nat -> M B) (s : store) :
  bind (df_new d) k s = k (fresh (dom s)) (<[fresh (dom s) := d]> s).
Proof. reflexivity. Qed.

Lemma bind_copy {B : Type} (r : nat) (k : nat -> M B) (s : store) (d : frame) :
  s !! r = Some d ->
  bind (df_copy r) k s = k (fresh (dom s)) (<[fresh (dom s) := d]> s).
Proof.
  intros H. unfold df_copy, bind, df_get, df_new.
  destruct (s !! r) as [d'|]; [|discriminate]. injection H as ->. reflexivity.
Qed.

Lemma bind_modify {B : Type} (r : nat) (f : frame -> frame) (k : unit -> M B)
      (s : store) (d : frame) :
  s !! r = Some d -> bind (df_modify r f) k s = k tt (<[r := f d]> s).
Proof.
  intros H. unfold bind, df_modify.
  destruct (s !! r) as [d'|]; [|discriminate]. injection H as ->. reflexivity.
Qed.

Lemma rebalance_while_run (fuel : nat) (amount : Q) (top : nat) :
  forall (total : Q) (t : frame) (s : store),
    s !! top = Some t ->
    exists s',
      rebalance_while fuel amount total top s
      = (outcome_map (fun _ => tt) (rebalance_loop fuel amount total t), s')
      /\ forall t', rebalance_loop fuel amount total t = Return t' ->
                    s' !! top = Some t'.
Proof.
  induction fuel as [|fuel IH]; intros total t s Hs;
    cbn [rebalance_while rebalance_loop];
    (destruct (Qltb total (amount * (95 # 100)));
     [|exists s; split; [reflexivity | intros t' [= <-]; exact Hs]]);
    rewrite (bind_get _ _ _ _ Hs); unfold rebalance_step;
    (destruct (idxmin (affordable_rows amount total t)) as [idx|];
     [|exists s; split; [reflexivity | intros t' [= <-]; exact Hs]]).
  - exists s. split; [reflexivity | discriminate].
  - rewrite (bind_modify _ _ _ _ _ Hs).
    erewrite bind_modify by apply lookup_insert_eq.
    erewrite bind_get by apply lookup_insert_eq.
    apply IH. apply lookup_insert_eq.
Qed.

(** On a frame that is not empty, [select_top_stocks] ends as [allocate]
    does on the first [count] rows of the ranked frame, and the reference it
    returns names a new frame holding the result of [allocate]. *)
Lemma select_top_stocks_run (sort_values : frame -> frame) (fuel : nat)
      (df : nat) (amount : Q) (count : Z) (s : store) (d : frame) :
  s !! df = Some d ->
  d <> [] ->
  exists (top : nat) (s' : store),
    select_top_stocks sort_values fuel df amount count s
    = (outcome_map (fun _ => top)
         (allocate fuel amount (ranked_head sort_values count d)), s')
    /\ s !! top = None
    /\ forall t, allocate fuel amount (ranked_head sort_values count d)
                 = Return t ->
                 s' !! top = Some t.
Proof.
  intros Hs Hd. unfold select_top_stocks.
  rewrite (bind_get _ _ _ _ Hs).
  destruct d as [|r0 d0]; [contradiction|]. clear Hd.
  set (d := r0 :: d0) in *.
  rewrite (bind_copy _ _ _ _ Hs).
  erewrite bind_modify by apply lookup_insert_eq.
  erewrite bind_get by apply lookup_insert_eq.
  rewrite bind_new.
  erewrite bind_get by apply lookup_insert_eq.
  rewrite bind_new.
  erewrite bind_copy by apply lookup_insert_eq.
  erewrite bind_get by apply lookup_insert_eq.
  fold (ranked_head sort_values count d).
  set (t := ranked_head sort_values count d).
  set (s4 := <[fresh (dom _) := t]> _).
  set (top := fresh (dom s4)).
  assert (Hfresh : s !! top = None).
  { apply not_elem_of_dom. intros Hin.
    apply (is_fresh (dom s4)). fold top. subst s4.
    rewrite !dom_insert_L. set_solver. }
  exists top.
  unfold allocate, bind at 1, lift.
  destruct (assign_allocation t) as [t1|e|] eqn:Eal;
    [|eexists; split; [reflexivity|]; split; [exact Hfresh | discriminate]..].
  erewrite bind_modify by apply lookup_insert_eq.
  erewrite bind_modify by apply lookup_insert_eq.
  erewrite bind_modify by apply lookup_insert_eq.
  erewrite bind_modify by apply lookup_insert_eq.
  erewrite bind_get by apply lookup_insert_eq.
  fold (quantize amount t1).
  set (s9 := <[top := quantize amount t1]> _).
  assert (Hs9 : s9 !! top = Some (quantize amount t1))
    by apply lookup_insert_eq.
  unfold rebalance.
  destruct (Qltb (total_actual (quantize amount t1)) (amount * (8 # 10))).
  - destruct (rebalance_while_run fuel amount top
                (total_actual (quantize amount t1)) _ _ Hs9)
      as (s' & Hrun & Hres).
    exists s'. unfold bind at 1. rewrite Hrun.
    split; [|split; [exact Hfresh | exact Hres]].
    destruct (rebalance_loop fuel amount _ _); reflexivity.
  - exists s9. split; [reflexivity|].
    split; [exact Hfresh|]. intros t' [= <-]. exact Hs9.
Qed.

(** C6 at a candidate without a price.  A frame of one row with price 0
    and a budget of 100: quantization gives the row 0 shares (the guard of
    [calculate_shares]); the loop then finds the row affordable on every
    pass, adds a share that costs nothing, and never ends: the call does
    not return, whatever the bound on the number of passes. *)
Theorem unpriced_candidate_never_returns :
  forall fuel,
    (select_top_stocks sort_ties_reversed fuel 0 100 10 store_with_unpriced).1
    = OutOfFuel.
Proof.
  intros fuel.
  destruct (select_top_stocks_run sort_ties_reversed fuel 0 100 10
              store_with_unpriced unpriced) as (top & s' & Hrun & _);
    [reflexivity | discriminate |].
  rewrite Hrun. cbn [fst].
  change (ranked_head sort_ties_reversed 10 unpriced)
    with [set_popularity_score
            (popularity (series_max (column market_cap unpriced))
                        (series_max (column volume unpriced))
                        (candidate 0 "Z" 0 1000 1000 50))
            (candidate 0 "Z" 0 1000 1000 50)].
  rewrite allocate_unpriced_never_returns; reflexivity.
Qed.

(** ** Ranking *)

Lemma leb_trans (x y z : float64) :
  F.leb x y = true -> F.leb y z = true -> F.leb x z = true.
Proof.
  destruct x, y, z; cbn; try discriminate; try reflexivity.
  rewrite !Qleb_true. apply Qle_trans.
Qed.

Lemma may_precede_trans (x y z : float64) :
  may_precede x y = true -> may_precede y z = true -> may_precede x z = true.
Proof.
  unfold may_precede. intros Hxy Hyz.
  destruct z; cbn [F.is_nan orb] in *; try reflexivity;
    (destruct y; cbn [F.is_nan orb] in *; try discriminate;
     eapply leb_trans; eassumption).
Qed.

Lemma may_precede_total (x y : float64) :
  may_precede x y = false -> may_precede y x = true.
Proof.
  unfold may_precede.
  destruct x, y; cbn; try discriminate; try reflexivity.
  rewrite Qleb_false, Qleb_true. apply Qlt_le_weak.
Qed.

Lemma insert_after_perm (r : row) (l : frame) :
  Permutation (r :: l) (insert_after r l).
Proof.
  induction l as [|h tl IH]; cbn [insert_after].
  - apply Permutation_refl.
  - destruct (may_precede (popularity_score h) (popularity_score r)).
    + eapply perm_trans; [apply perm_swap|]. apply perm_skip, IH.
    + apply Permutation_refl.
Qed.

Lemma insert_after_sorted (r : row) (l : frame) :
  StronglySorted ranks_before l ->
  StronglySorted ranks_before (insert_after r l).
Proof.
  induction 1 as [|h tl Hs IH Hh]; cbn [insert_after].
  - constructor; constructor.
  - destruct (may_precede (popularity_score h) (popularity_score r)) eqn:E.
    + constructor; [exact IH|].
      apply (Permutation_Forall (insert_after_perm r tl)).
      constructor; [exact E | exact Hh].
    + apply may_precede_total in E.
      constructor; [constructor; assumption|].
      constructor; [exact E|].
      eapply Forall_impl; [exact Hh|]. intros x Hx.
      unfold ranks_before in *. eapply may_precede_trans; eassumption.
Qed.

Lemma sort_ties_reversed_sorts : sorts_descending sort_ties_reversed.
Proof.
  intros df. unfold sort_ties_reversed.
  induction df as [|r df [IHp IHs]]; cbn [fold_right].
  - split; constructor.
  - split.
    + eapply perm_trans; [apply perm_skip, IHp | apply insert_after_perm].
    + apply insert_after_sorted, IHs.
Qed.





(** * Instances *)


Lemma empty_frame_is_returned_witness :
  select_top_stocks sort_ties_reversed 5 0 1000 10 store_with_empty_frame
  = (Return 0%nat, store_with_empty_frame).
Proof.
  apply (empty_frame_is_returned sort_ties_reversed 5 0 1000 10
           store_with_empty_frame).
  reflexivity.
Defined.


Lemma allocation_percentages_sum_to_100_witness :
  exists t,
    assign_allocation scenario_AB = Return t
    /\ Qsum (column allocation_percentage t) == 100
    /\ (Qsum (column quality_score scenario_AB) == 0 ->
        Forall (fun r => allocation_percentage r
                         == 100 / inject_Z (Z.of_nat (length scenario_AB))) t)
    /\ (~ Qsum (column quality_score scenario_AB) == 0 ->
        Forall2 (fun r0 r =>
                   allocation_percentage r
                   == quality_score r0
                      / Qsum (column quality_score scenario_AB) * 100)
                scenario_AB t).
Proof.
  apply (allocation_percentages_sum_to_100 scenario_AB). discriminate.
Defined.

Lemma zero_maximum_gives_nan_witness :
  Forall (fun r => normalized (market_cap r)
                     (series_max (column market_cap zero_caps)) = NaN)
         zero_caps
  /\ Forall (fun r => popularity_score r = NaN) (assign_popularity zero_caps).
Proof.
  apply (zero_maximum_gives_nan MarketCap zero_caps).
  - repeat constructor; vm_compute; discriminate.
  - vm_compute. reflexivity.
Defined.



(** * Further properties *)

(** ** Sectors and risk levels *)

Lemma lower_char_idempotent (c : ascii) : lower_char (lower_char c) = lower_char c.
Proof.
  destruct c as [[|] [|] [|] [|] [|] [|] [|] [|]]; reflexivity.
Qed.

Lemma lower_idempotent (s : string) : lower (lower s) = lower s.
Proof.
  induction s as [|c s IH]; cbn [lower]; [reflexivity|].
  rewrite lower_char_idempotent, IH. reflexivity.
Qed.

Lemma first_sector_known (s : string) (m : list (string * string)) :
  In (first_sector s m) ("Other"%string :: map snd m).
Proof.
  induction m as [|[key sector] m IH]; cbn [first_sector map snd].
  - left. reflexivity.
  - destruct (contains key s).
    + right. left. reflexivity.
    + destruct IH as [IH|IH]; [left; exact IH | right; right; exact IH].
Qed.

(** The sector of a symbol does not depend on the case of its letters, and
    it is one of the sectors of [sector_map] or "Other". *)
Theorem guess_sector_ignores_case (symbol : string) :
  _guess_sector (lower symbol) = _guess_sector symbol
  /\ In (_guess_sector symbol) ("Other"%string :: map snd sector_map).
Proof.
  unfold _guess_sector. rewrite lower_idempotent.
  split; [reflexivity | apply first_sector_known].
Qed.

(** No entry of [sector_map] is hidden by an earlier one: every keyword,
    taken as a symbol, gets the sector written beside it. *)
Theorem every_keyword_decides_its_sector :
  Forall (fun entry => _guess_sector (fst entry) = snd entry) sector_map.
Proof.
  unfold sector_map. repeat constructor.
Qed.

(** A higher volatility never gets a lower risk level. *)
Theorem calculate_risk_monotone (v1 v2 : Q) :
  v1 <= v2 ->
  (_calculate_risk v2 = "Low"%string -> _calculate_risk v1 = "Low"%string)
  /\ (_calculate_risk v1 = "High"%string -> _calculate_risk v2 = "High"%string).
Proof.
  intros Hle. unfold _calculate_risk.
  destruct (Qltb v1 5) eqn:E1, (Qltb v2 5) eqn:E2,
           (Qltb v1 15) eqn:E3, (Qltb v2 15) eqn:E4;
    qbool; split; intros H; try reflexivity; try discriminate; exfalso; lra.
Qed.

(** ** Generated quotes *)

Lemma uniform_range (a b u : Q) :
  a <= b -> unit_interval u -> a <= uniform a b u /\ uniform a b u <= b.
Proof.
  intros Hab [H0 H1]. unfold uniform.
  assert (Hd : 0 <= b - a) by lra.
  pose proof (Qmult_le_0_compat _ _ Hd H0) as Hlo.
  assert (Hhi : (b - a) * u <= (b - a) * 1).
  { rewrite (Qmult_comm (b - a) u), (Qmult_comm (b - a) 1).
    apply Qmult_le_compat_r; assumption. }
  split; lra.
Qed.

Lemma dict_get_Forall {V : Type} (P : V -> Prop) (d : list (string * V))
      (key : string) (default : V) :
  P default -> Forall (fun entry => P (snd entry)) d ->
  P (dict_get d key default).
Proof.
  intros Hd. induction 1 as [|[k v] d Hv _ IH]; cbn [dict_get].
  - exact Hd.
  - destruct (String.eqb k key); [exact Hv | exact IH].
Qed.

Lemma price_range_bounds (symbol : string) :
  let range := dict_get price_ranges symbol (100, 500) in
  100 <= fst range /\ fst range <= snd range /\ snd range <= 34000.
Proof.
  apply (dict_get_Forall
           (fun range => 100 <= fst range /\ fst range <= snd range
                         /\ snd range <= 34000)).
  - cbn. repeat split; discriminate.
  - unfold price_ranges. repeat constructor; cbn; discriminate.
Qed.

Lemma generated_price (symbol : string) (d : draws) :
  valid_draws d ->
  let range := dict_get price_ranges symbol (100, 500) in
  Quote.current_price (_generate_realistic_stock symbol d)
  = uniform (fst range) (snd range) (u_base_price d).
Proof.
  intros _. unfold _generate_realistic_stock.
  destruct (dict_get price_ranges symbol (100, 500)) as [lo hi]. reflexivity.
Qed.

Lemma generated_price_range (symbol : string) (d : draws) :
  valid_draws d ->
  let range := dict_get price_ranges symbol (100, 500) in
  let price := Quote.current_price (_generate_realistic_stock symbol d) in
  fst range <= price /\ price <= snd range /\ 100 <= price /\ price <= 34000.
Proof.
  intros Hd. cbv zeta. rewrite (generated_price symbol d Hd).
  destruct (price_range_bounds symbol) as (H1 & H2 & H3).
  destruct Hd as (Hu & _).
  destruct (uniform_range _ _ _ H2 Hu) as [Hlo Hhi].
  repeat split; try assumption; lra.
Qed.

Lemma scale_range (p x a b : Q) :
  0 <= p -> a <= x -> x <= b -> p * a <= p * x /\ p * x <= p * b.
Proof.
  intros Hp Ha Hb. split.
  - rewrite (Qmult_comm p a), (Qmult_comm p x).
    apply Qmult_le_compat_r; assumption.
  - rewrite (Qmult_comm p x), (Qmult_comm p b).
    apply Qmult_le_compat_r; assumption.
Qed.

Lemma generated_fields (symbol : string) (d : draws) :
  let q := _generate_realistic_stock symbol d in
  let p := Quote.current_price q in
  Quote.volume q = randint 1000000 50000000 (k_volume d)
  /\ Quote.market_cap q
     = p * inject_Z (randint 10000000 100000000 (k_market_cap d))
  /\ Quote.low q = p * uniform (97 # 100) 1 (u_low d)
  /\ Quote.high q = p * uniform 1 (103 # 100) (u_high d)
  /\ Quote.week52_low q = p * uniform (75 # 100) (85 # 100) (u_52_week_low d)
  /\ Quote.week52_high q
     = p * uniform (115 # 100) (125 # 100) (u_52_week_high d).
Proof.
  unfold _generate_realistic_stock.
  destruct (dict_get price_ranges symbol (100, 500)) as [lo hi].
  repeat split; reflexivity.
Qed.

Lemma generated_market_cap_range (symbol : string) (d : draws) :
  valid_draws d ->
  let q := _generate_realistic_stock symbol d in
  Quote.current_price q * 10000000 <= Quote.market_cap q
  /\ Quote.market_cap q <= Quote.current_price q * 100000000.
Proof.
  intros Hd. cbv zeta.
  destruct (generated_price_range symbol d Hd) as (_ & _ & H100 & _).
  destruct (generated_fields symbol d) as (_ & -> & _).
  destruct Hd as (_ & _ & _ & _ & Hkc & _).
  unfold randint, below in *.
  assert (H1 : inject_Z 10000000 <= inject_Z (10000000 + k_market_cap d))
    by (rewrite <- Zle_Qle; lia).
  assert (H2 : inject_Z (10000000 + k_market_cap d) <= inject_Z 100000000)
    by (rewrite <- Zle_Qle; lia).
  apply scale_range; [lra | exact H1 | exact H2].
Qed.

(** Whatever the random numbers, a generated quote has a price inside the
    range of its symbol, hence between 100 and 34000, a volume between one
    and fifty million, a market capitalization between ten and a hundred
    million times the price, a day's low and high and a 52-week low and
    high on the two sides of the price. *)
Theorem generated_quote_is_well_formed (symbol : string) (d : draws) :
  valid_draws d ->
  let q := _generate_realistic_stock symbol d in
  let range := dict_get price_ranges symbol (100, 500) in
  let price := Quote.current_price q in
  (fst range <= price /\ price <= snd range)
  /\ (100 <= price /\ price <= 34000)
  /\ (1000000 <= Quote.volume q <= 50000000)%Z
  /\ (price * 10000000 <= Quote.market_cap q
      /\ Quote.market_cap q <= price * 100000000)
  /\ (Quote.low q <= price /\ price <= Quote.high q)
  /\ (Quote.week52_low q < price /\ price < Quote.week52_high q).
Proof.
  intros Hd. cbv zeta.
  destruct (generated_price_range symbol d Hd) as (Hlo & Hhi & H100 & Hmax).
  pose proof (generated_market_cap_range symbol d Hd) as Hmc.
  destruct (generated_fields symbol d) as (Ev & _ & El & Eh & Ewl & Ewh).
  cbv zeta in *. rewrite Ev, El, Eh, Ewl, Ewh.
  set (p := Quote.current_price (_generate_realistic_stock symbol d)) in *.
  assert (Hp0 : 0 <= p) by lra.
  destruct Hd as (_ & _ & _ & Hkv & _ & _ & _ & Hu52h & Hu52l & _ & Huh
                  & Hul & _).
  split; [split; assumption|]. split; [split; assumption|].
  split; [unfold randint, below in *; lia|].
  split; [exact Hmc|].
  assert (Hl : 97 # 100 <= 1) by discriminate.
  assert (Hh : 1 <= 103 # 100) by discriminate.
  assert (H52l : 75 # 100 <= 85 # 100) by discriminate.
  assert (H52h : 115 # 100 <= 125 # 100) by discriminate.
  destruct (uniform_range _ _ _ Hl Hul) as [Hl1 Hl2].
  destruct (uniform_range _ _ _ Hh Huh) as [Hh1 Hh2].
  destruct (uniform_range _ _ _ H52l Hu52l) as [Hwl1 Hwl2].
  destruct (uniform_range _ _ _ H52h Hu52h) as [Hwh1 Hwh2].
  destruct (scale_range p _ _ _ Hp0 Hl1 Hl2) as [_ Hlow].
  destruct (scale_range p _ _ _ Hp0 Hh1 Hh2) as [Hhigh _].
  destruct (scale_range p _ _ _ Hp0 Hwl1 Hwl2) as [_ Hwlow].
  destruct (scale_range p _ _ _ Hp0 Hwh1 Hwh2) as [Hwhigh _].
  repeat split; lra.
Qed.

Lemma generated_volatility (symbol : string) (d : draws) :
  Quote.volatility (_generate_realistic_stock symbol d)
  = Qabs (uniform (-5) 5 (u_change_pct d))
    * uniform (15 # 10) (25 # 10) (u_volatility d)
  /\ Quote.risk_level (_generate_realistic_stock symbol d)
     = _calculate_risk (Quote.volatility (_generate_realistic_stock symbol d)).
Proof.
  unfold _generate_realistic_stock.
  destruct (dict_get price_ranges symbol (100, 500)) as [lo hi].
  split; reflexivity.
Qed.

(** Whatever the random numbers, the volatility of a generated quote lies
    between 0 and 12.5, so its risk level is "Low" or "Medium" and never
    "High". *)
Theorem generated_risk_is_never_high (symbol : string) (d : draws) :
  valid_draws d ->
  let q := _generate_realistic_stock symbol d in
  (0 <= Quote.volatility q /\ Quote.volatility q <= 25 # 2)
  /\ (Quote.risk_level q = "Low"%string
      \/ Quote.risk_level q = "Medium"%string).
Proof.
  intros Hd. cbv zeta.
  destruct (generated_volatility symbol d) as [Hv Hr]. rewrite Hr, Hv.
  destruct Hd as (_ & Huc & Huv & _).
  assert (Hc : -5 <= 5) by discriminate.
  assert (Hf : 15 # 10 <= 25 # 10) by discriminate.
  destruct (uniform_range _ _ _ Hc Huc) as [Hc1 Hc2].
  destruct (uniform_range _ _ _ Hf Huv) as [Hf1 Hf2].
  set (c := uniform (-5) 5 (u_change_pct d)) in *.
  set (f := uniform (15 # 10) (25 # 10) (u_volatility d)) in *.
  assert (Ha0 : 0 <= Qabs c) by apply Qabs_nonneg.
  assert (Ha5 : Qabs c <= 5) by (apply Qabs_Qle_condition; split; lra).
  assert (Hlo : 0 <= Qabs c * f).
  { apply Qmult_le_0_compat; [exact Ha0 | lra]. }
  assert (Hhi : Qabs c * f <= 25 # 2).
  { apply Qle_trans with (5 * f).
    - apply Qmult_le_compat_r; [exact Ha5 | lra].
    - lra. }
  split; [split; assumption|].
  unfold _calculate_risk.
  destruct (Qltb (Qabs c * f) 5); [left; reflexivity|].
  assert (E : Qltb (Qabs c * f) 15 = true) by (apply Qltb_true; lra).
  rewrite E. right. reflexivity.
Qed.

(** ** Quality and popularity scores *)

Lemma series_max_positive (l : list Q) :
  Exists (fun x => 0 < x) l ->
  exists mx, series_max l = Fin mx /\ 0 < mx /\ Forall (fun x => x <= mx) l.
Proof.
  intros Hex. unfold series_max.
  destruct (Qmaximum l) as [mx|] eqn:E.
  - exists mx. pose proof (Qmaximum_ge l mx E) as Hge.
    split; [reflexivity|]. split; [|exact Hge].
    apply List.Exists_exists in Hex as (x & Hin & Hx).
    rewrite List.Forall_forall in Hge. specialize (Hge x Hin). lra.
  - destruct l; [inversion Hex | discriminate].
Qed.

Lemma normalized_finite (x mx : Q) :
  0 < mx -> normalized x (Fin mx) = Fin (x / mx * 100).
Proof.
  intros Hm. unfold normalized, F.div.
  assert (E : Qeqb mx 0 = false) by (apply Qeqb_false; lra).
  rewrite E. reflexivity.
Qed.

Lemma share_of_max_range (x mx : Q) :
  0 < mx -> 0 <= x -> x <= mx -> 0 <= x / mx * 100 /\ x / mx * 100 <= 100.
Proof.
  intros Hm H0 Hle.
  assert (H1 : 0 <= x / mx).
  { apply Qle_shift_div_l; [exact Hm | lra]. }
  assert (H2 : x / mx <= 1).
  { apply Qle_shift_div_r; [exact Hm | lra]. }
  split; lra.
Qed.

Lemma clip_range (lo hi x : Q) :
  lo <= hi -> lo <= clip lo hi x /\ clip lo hi x <= hi.
Proof.
  intros Hle. unfold clip.
  destruct (Qltb x lo) eqn:E1; [split; lra|].
  destruct (Qltb hi x) eqn:E2; qbool; split; lra.
Qed.

Lemma pe_points_range (x : Q) : 50 <= pe_points x /\ pe_points x <= 100.
Proof.
  unfold pe_points. destruct (Qleb 15 x && Qleb x 25); split; discriminate.
Qed.

Lemma add_quality_scores_rows (df : list Quote.t) :
  _add_quality_scores df
  = map (fun q => (q, quality (series_max (map Quote.market_cap df)) q)) df.
Proof. destruct df; reflexivity. Qed.

Lemma quality_range (mx : Q) (q : Quote.t) :
  0 < mx -> 0 <= Quote.market_cap q -> Quote.market_cap q <= mx ->
  exists v, quality (Fin mx) q = Fin v /\ 15 <= v /\ v <= 100.
Proof.
  intros Hmx H0 Hle. unfold quality.
  rewrite (normalized_finite _ _ Hmx). cbn [F.add F.mul].
  eexists. split; [reflexivity|].
  destruct (share_of_max_range (Quote.market_cap q) mx Hmx H0 Hle)
    as [Hc0 Hc1].
  destruct (pe_points_range (Quote.pe_ratio q)) as [Hp0 Hp1].
  assert (H0100 : 0 <= 100) by discriminate.
  destruct (clip_range 0 100 (Quote.dividend_yield q * 10) H0100)
    as [Hd0 Hd1].
  destruct (clip_range 0 100 (100 - Quote.volatility q * 5) H0100)
    as [Hv0 Hv1].
  split; lra.
Qed.

Lemma quality_scores_range (df : list Quote.t) :
  Forall (fun q => 0 <= Quote.market_cap q) df ->
  Exists (fun q => 0 < Quote.market_cap q) df ->
  Forall (fun q => exists v,
                     quality (series_max (map Quote.market_cap df)) q = Fin v
                     /\ 15 <= v /\ v <= 100) df.
Proof.
  intros Hnn Hex.
  destruct (series_max_positive (map Quote.market_cap df))
    as (mx & -> & Hmx & Hge).
  { apply List.Exists_exists in Hex as (q & Hin & Hq).
    apply List.Exists_exists. exists (Quote.market_cap q).
    split; [apply in_map, Hin | exact Hq]. }
  rewrite List.Forall_map in Hge.
  rewrite List.Forall_forall in *. intros q Hin.
  apply quality_range; [exact Hmx | apply Hnn, Hin | apply Hge, Hin].
Qed.

(** When no market capitalization is negative and one at least is positive,
    [_add_quality_scores] keeps the rows and their order and gives every
    row a quality score that is a number between 15 and 100. *)
Theorem quality_scores_between_15_and_100 (df : list Quote.t) :
  Forall (fun q => 0 <= Quote.market_cap q) df ->
  Exists (fun q => 0 < Quote.market_cap q) df ->
  map fst (_add_quality_scores df) = df
  /\ Forall (fun scored => exists v, snd scored = Fin v /\ 15 <= v /\ v <= 100)
            (_add_quality_scores df).
Proof.
  intros Hnn Hex. rewrite add_quality_scores_rows.
  split; [rewrite map_map; apply map_id|].
  apply List.Forall_map. cbn [snd].
  apply quality_scores_range; assumption.
Qed.

(** When every market capitalization is zero, the division by their maximum
    is not guarded: every quality score is NaN. *)
Theorem quality_scores_nan_without_caps (df : list Quote.t) :
  Forall (fun q => 0 <= Quote.market_cap q) df ->
  max_is_zero (map Quote.market_cap df) ->
  Forall (fun scored => snd scored = NaN) (_add_quality_scores df).
Proof.
  intros Hnn Hz. rewrite add_quality_scores_rows.
  unfold max_is_zero in Hz. unfold series_max.
  destruct (Qmaximum (map Quote.market_cap df)) as [mx|] eqn:E;
    [|contradiction].
  apply Qmaximum_ge in E. rewrite List.Forall_map in E.
  apply List.Forall_map. rewrite List.Forall_forall in *.
  intros q Hin. cbn [snd]. unfold quality, normalized.
  rewrite div_zero_by_zero; [cbn [F.mul]; apply add_nan_r | | exact Hz].
  specialize (Hnn q Hin). specialize (E q Hin). cbn beta in E. lra.
Qed.

(** When the largest market capitalization and the largest volume of a
    frame are positive, none is negative and the quality scores lie between
    0 and 100, every popularity score is a number between 0 and 100. *)
Theorem popularity_between_0_and_100 (df : frame) :
  Forall (fun r => 0 <= market_cap r /\ 0 <= volume r
                   /\ 0 <= quality_score r /\ quality_score r <= 100) df ->
  Exists (fun r => 0 < market_cap r) df ->
  Exists (fun r => 0 < volume r) df ->
  Forall (fun r => exists p, popularity_score r = Fin p /\ 0 <= p /\ p <= 100)
         (assign_popularity df).
Proof.
  intros Hr Hmc Hvol. unfold assign_popularity.
  destruct (series_max_positive (column market_cap df))
    as (mc_max & -> & Hmc0 & Hmcge).
  { apply List.Exists_exists in Hmc as (r & Hin & Hq).
    apply List.Exists_exists. exists (market_cap r).
    split; [apply in_column, Hin | exact Hq]. }
  destruct (series_max_positive (column volume df))
    as (vol_max & -> & Hvol0 & Hvolge).
  { apply List.Exists_exists in Hvol as (r & Hin & Hq).
    apply List.Exists_exists. exists (volume r).
    split; [apply in_column, Hin | exact Hq]. }
  unfold column in Hmcge, Hvolge. rewrite List.Forall_map in Hmcge, Hvolge.
  apply List.Forall_map. rewrite List.Forall_forall in *. intros r Hin.
  cbn [popularity_score set_popularity_score]. unfold popularity.
  rewrite (normalized_finite _ _ Hmc0), (normalized_finite _ _ Hvol0).
  cbn [F.add F.mul]. eexists. split; [reflexivity|].
  destruct (Hr r Hin) as (Hm0 & Hv0 & Hq0 & Hq1).
  destruct (share_of_max_range _ _ Hmc0 Hm0 (Hmcge r Hin)) as [Ha0 Ha1].
  destruct (share_of_max_range _ _ Hvol0 Hv0 (Hvolge r Hin)) as [Hb0 Hb1].
  split; lra.
Qed.

(** ** The fetched frame *)

Lemma generated_symbol (symbol : string) (d : draws) :
  Quote.symbol (_generate_realistic_stock symbol d) = symbol.
Proof.
  unfold _generate_realistic_stock.
  destruct (dict_get price_ranges symbol (100, 500)). reflexivity.
Qed.

Lemma generate_all_symbols (rng : nat -> draws) (symbols : list string) :
  forall i, map Quote.symbol (generate_all rng i symbols) = symbols.
Proof.
  induction symbols as [|s ss IH]; intros i; cbn [generate_all map].
  - reflexivity.
  - rewrite generated_symbol, IH. reflexivity.
Qed.

Lemma fetch_yahoo_data_rows (rng : nat -> draws) (symbols : list string)
      (max_stocks : Z) :
  map fst (fetch_yahoo_data rng symbols max_stocks)
  = generate_all rng 0
      (slice_to (Z.min max_stocks (Z.of_nat (length symbols))) symbols).
Proof.
  unfold fetch_yahoo_data.
  destruct (generate_all rng 0 _) as [|q data] eqn:E; [reflexivity|].
  rewrite add_quality_scores_rows, map_map. apply map_id.
Qed.

(** The frame of [fetch_yahoo_data] has one row for each of the first
    [max_stocks] symbols, in their order.  A negative [max_stocks] does not
    give an empty frame: that many symbols are dropped from the end of the
    list. *)
Theorem fetch_yahoo_data_symbols (rng : nat -> draws) (symbols : list string)
        (max_stocks : Z) :
  map (fun scored => Quote.symbol (fst scored))
      (fetch_yahoo_data rng symbols max_stocks)
  = if (0 <=? max_stocks)%Z
    then firstn (Z.to_nat max_stocks) symbols
    else firstn (length symbols - Z.to_nat (- max_stocks)) symbols.
Proof.
  rewrite <- (map_map fst Quote.symbol), fetch_yahoo_data_rows,
    generate_all_symbols.
  unfold slice_to.
  destruct (0 <=? max_stocks)%Z eqn:E.
  - apply Z.leb_le in E.
    assert (E' : (0 <=? Z.min max_stocks (Z.of_nat (length symbols)))%Z = true)
      by (apply Z.leb_le; lia).
    rewrite E'.
    destruct (Z.le_gt_cases max_stocks (Z.of_nat (length symbols))) as [H|H].
    + rewrite Z.min_l by exact H. reflexivity.
    + rewrite Z.min_r by lia. rewrite Nat2Z.id.
      rewrite !firstn_all2; [reflexivity | lia | lia].
  - apply Z.leb_gt in E.
    assert (E' : (0 <=? Z.min max_stocks (Z.of_nat (length symbols)))%Z = false)
      by (apply Z.leb_gt; lia).
    rewrite E'. rewrite Z.min_l by lia. reflexivity.
Qed.

Lemma generate_all_Forall (P : Quote.t -> Prop) (rng : nat -> draws)
      (symbols : list string) :
  (forall symbol d, valid_draws d -> P (_generate_realistic_stock symbol d)) ->
  (forall i, valid_draws (rng i)) ->
  forall i, Forall P (generate_all rng i symbols).
Proof.
  intros HP Hrng. induction symbols as [|s ss IH]; intros i;
    cbn [generate_all]; constructor; auto.
Qed.

Lemma generated_quote_positive (symbol : string) (d : draws) :
  valid_draws d ->
  let q := _generate_realistic_stock symbol d in
  100 <= Quote.current_price q /\ 0 < Quote.market_cap q
  /\ (0 < Quote.volume q)%Z.
Proof.
  intros Hd. cbv zeta.
  destruct (generated_price_range symbol d Hd) as (_ & _ & H100 & _).
  destruct (generated_market_cap_range symbol d Hd) as [Hmc _].
  destruct (generated_fields symbol d) as (Ev & _). cbv zeta in Ev.
  rewrite Ev. destruct Hd as (_ & _ & _ & Hkv & _).
  unfold randint, below in *. repeat split; [exact H100 | lra | lia].
Qed.

Lemma fetched_rows (rng : nat -> draws) (symbols : list string)
      (max_stocks : Z) :
  (forall i, valid_draws (rng i)) ->
  Forall (fun scored =>
            100 <= Quote.current_price (fst scored)
            /\ 0 < Quote.market_cap (fst scored)
            /\ (0 < Quote.volume (fst scored))%Z
            /\ exists v, snd scored = Fin v /\ 15 <= v /\ v <= 100)
         (fetch_yahoo_data rng symbols max_stocks).
Proof.
  intros Hrng. unfold fetch_yahoo_data.
  set (data := generate_all rng 0 _).
  assert (Hdata : Forall (fun q => 100 <= Quote.current_price q
                                   /\ 0 < Quote.market_cap q
                                   /\ (0 < Quote.volume q)%Z) data).
  { apply generate_all_Forall; [|exact Hrng].
    intros symbol d Hd. apply generated_quote_positive, Hd. }
  assert (Hq : data <> [] ->
               Forall (fun q => exists v,
                          quality (series_max (map Quote.market_cap data)) q
                          = Fin v /\ 15 <= v /\ v <= 100) data).
  { intros Hne. apply quality_scores_range.
    - eapply Forall_impl; [exact Hdata|]. intros x (_ & Hx & _). lra.
    - destruct data as [|x data']; [contradiction|].
      apply Forall_cons_iff in Hdata as [(_ & Hx & _) _].
      constructor. exact Hx. }
  destruct data as [|q0 data'] eqn:E; [constructor|]. rewrite <- E in *.
  rewrite add_quality_scores_rows. apply List.Forall_map.
  specialize (Hq ltac:(rewrite E; discriminate)).
  rewrite List.Forall_forall in *. intros x Hin. cbn [fst snd].
  destruct (Hdata x Hin) as (H1 & H2 & H3).
  repeat split; try assumption. apply Hq, Hin.
Qed.

Lemma as_rows_fetched (df : list (Quote.t * float64)) :
  Forall (fun scored =>
            100 <= Quote.current_price (fst scored)
            /\ 0 < Quote.market_cap (fst scored)
            /\ (0 < Quote.volume (fst scored))%Z
            /\ exists v, snd scored = Fin v /\ 15 <= v /\ v <= 100) df ->
  forall i,
  exists d,
    as_rows i df = Some d
    /\ Forall fetched_row d
    /\ column label d = map Z.of_nat (seq i (length d))
    /\ column symbol d = map (fun scored => Quote.symbol (fst scored)) df.
Proof.
  induction 1 as [|[q sc] df (H1 & H2 & H3 & v & Hv & Hv1 & Hv2) _ IH];
    intros i; cbn [as_rows].
  - exists []. repeat split; constructor.
  - cbn [snd] in Hv. subst sc. destruct (IH (S i)) as (d & -> & Hd & Hl & Hs).
    cbn [option_map]. eexists. split; [reflexivity|].
    cbn [fst] in *. split; [|split].
    + constructor; [|exact Hd]. unfold fetched_row. cbn.
      repeat split; try assumption.
      change 0 with (inject_Z 0). rewrite <- Zlt_Qlt. exact H3.
    + cbn [column map label candidate length seq]. rewrite <- Hl.
      reflexivity.
    + cbn [column map symbol candidate fst]. f_equal. exact Hs.
Qed.

(** With random numbers in their ranges, every row of the fetched frame has
    a price of at least 100, a positive market capitalization and volume,
    and a quality score that is a number between 15 and 100; the frame
    passes to [select_top_stocks] under the labels 0, 1, 2, ... *)
Theorem fetched_frame_is_well_formed (rng : nat -> draws)
        (symbols : list string) (max_stocks : Z) :
  (forall i, valid_draws (rng i)) ->
  exists d,
    as_frame (fetch_yahoo_data rng symbols max_stocks) = Some d
    /\ Forall fetched_row d
    /\ column label d = map Z.of_nat (seq 0 (length d))
    /\ column symbol d
       = map (fun scored => Quote.symbol (fst scored))
             (fetch_yahoo_data rng symbols max_stocks).
Proof.
  intros Hrng. unfold as_frame.
  apply as_rows_fetched, fetched_rows, Hrng.
Qed.

(** ** What the rebalance pass changes *)

Lemma same_but_shares_fields (r r' : row) :
  same_but_shares r r'
  <-> label r' = label r /\ symbol r' = symbol r
      /\ current_price r' = current_price r /\ market_cap r' = market_cap r
      /\ volume r' = volume r /\ quality_score r' = quality_score r
      /\ popularity_score r' = popularity_score r
      /\ allocation_percentage r' = allocation_percentage r
      /\ recommended_investment r' = recommended_investment r.
Proof.
  unfold same_but_shares. destruct r, r'; cbn. split.
  - intros [= -> -> -> -> -> -> -> -> ->]. repeat split.
  - intros (-> & -> & -> & -> & -> & -> & -> & -> & ->). reflexivity.
Qed.

Lemma topped_up_refl (r : row) : topped_up r r.
Proof.
  split.
  - apply same_but_shares_fields. repeat split.
  - exists 0%nat. cbn. ring.
Qed.

Lemma topped_up_trans (r1 r2 r3 : row) :
  topped_up r1 r2 -> topped_up r2 r3 -> topped_up r1 r3.
Proof.
  intros [H12 [n Hn]] [H23 [k Hk]]. split.
  - apply same_but_shares_fields in H12, H23. apply same_but_shares_fields.
    destruct H12 as (?&?&?&?&?&?&?&?&?), H23 as (?&?&?&?&?&?&?&?&?).
    repeat split; congruence.
  - exists (n + k)%nat. rewrite Hk, Hn, Nat2Z.inj_add, inject_Z_plus. ring.
Qed.

Lemma add_one_share_tops_up (idx : Z) (t : frame) :
  Forall2 topped_up t (add_one_share idx t).
Proof.
  unfold add_one_share, loc_update. rewrite map_map.
  induction t as [|r t IH]; cbn [map]; constructor; [|exact IH].
  destruct (label r =? idx)%Z eqn:E.
  - cbn [label add_share set_shares_to_buy]. rewrite E. split.
    + apply same_but_shares_fields. cbn. repeat split.
    + exists 1%nat. cbn. reflexivity.
  - rewrite E. apply topped_up_refl.
Qed.

Lemma Forall2_topped_up_trans (t1 t2 t3 : frame) :
  Forall2 topped_up t1 t2 -> Forall2 topped_up t2 t3 ->
  Forall2 topped_up t1 t3.
Proof.
  intros H. revert t3. induction H as [|a b l l' Hab _ IH]; intros t3 H3.
  - inversion H3. constructor.
  - inversion H3 as [|b' c l2 l3 Hbc Hrest]; subst.
    constructor; [eapply topped_up_trans; eassumption | apply IH, Hrest].
Qed.

Lemma Forall2_topped_up_refl (t : frame) : Forall2 topped_up t t.
Proof. induction t; constructor; [apply topped_up_refl | assumption]. Qed.

Lemma rebalance_loop_tops_up (fuel : nat) (amount : Q) :
  forall (total : Q) (t t' : frame),
    rebalance_loop fuel amount total t = Return t' ->
    Forall2 topped_up t t'.
Proof.
  induction fuel as [|fuel IH]; intros total t t'; cbn [rebalance_loop];
    (destruct (Qltb total (amount * (95 # 100)));
     [|intros [= <-]; apply Forall2_topped_up_refl]);
    unfold rebalance_step;
    (destruct (idxmin (affordable_rows amount total t)) as [idx|];
     [|intros [= <-]; apply Forall2_topped_up_refl]).
  - discriminate.
  - intros H. eapply Forall2_topped_up_trans;
      [apply add_one_share_tops_up | eapply IH, H].
Qed.

(** The rebalance pass changes nothing but [shares_to_buy] and
    [actual_investment]: rows, order and all other columns are as before,
    and every share count has grown by a whole number, possibly 0. *)
Theorem rebalance_only_adds_shares (fuel : nat) (amount : Q) (t t' : frame) :
  rebalance fuel amount t = Return t' ->
  Forall2 topped_up t t'.
Proof.
  unfold rebalance. destruct (Qltb (total_actual t) (amount * (8 # 10))).
  - apply rebalance_loop_tops_up.
  - intros [= <-]. apply Forall2_topped_up_refl.
Qed.

Lemma idxmin_none (df : frame) : idxmin df = None -> df = [].
Proof. destruct df; [reflexivity | discriminate]. Qed.

Lemma rebalance_loop_exit (fuel : nat) (amount : Q) :
  forall (t t' : frame),
    rebalance_loop fuel amount (total_actual t) t = Return t' ->
    amount * (95 # 100) <= total_actual t'
    \/ affordable_rows amount (total_actual t') t' = [].
Proof.
  induction fuel as [|fuel IH]; intros t t'; cbn [rebalance_loop];
    (destruct (Qltb (total_actual t) (amount * (95 # 100))) eqn:E;
     [|intros [= <-]; left; apply Qltb_false, E]);
    unfold rebalance_step;
    (destruct (idxmin (affordable_rows amount (total_actual t) t))
       as [idx|] eqn:Ei;
     [|intros [= <-]; right; apply idxmin_none, Ei]).
  - discriminate.
  - apply IH.
Qed.

(** When the rebalance pass returns, either it was not needed (the spend
    was already 80% of the budget and the frame is returned as it was), or
    the spend has reached 95% of the budget, or no price fits into what is
    left of the budget. *)
Theorem rebalance_stops_for_a_reason (fuel : nat) (amount : Q) (t t' : frame) :
  rebalance fuel amount t = Return t' ->
  (amount * (8 # 10) <= total_actual t /\ t' = t)
  \/ amount * (95 # 100) <= total_actual t'
  \/ Forall (fun r => amount - total_actual t' < current_price r) t'.
Proof.
  unfold rebalance.
  destruct (Qltb (total_actual t) (amount * (8 # 10))) eqn:E.
  - intros H. right. apply rebalance_loop_exit in H as [H|H];
      [left; exact H | right].
    apply List.Forall_forall. intros r Hin.
    destruct (Qlt_le_dec (amount - total_actual t') (current_price r))
      as [Hlt|Hle]; [exact Hlt|].
    assert (Hr : In r (affordable_rows amount (total_actual t') t'))
      by (apply affordable_rows_in; split; assumption).
    rewrite H in Hr. destruct Hr.
  - intros [= <-]. left. split; [apply Qltb_false, E | reflexivity].
Qed.

Lemma first_min_split (rest : frame) :
  forall best,
    exists before after,
      best :: rest = before ++ first_min best rest :: after
      /\ Forall (fun x => current_price (first_min best rest) < current_price x)
                before
      /\ Forall (fun x => current_price (first_min best rest) <= current_price x)
                after.
Proof.
  induction rest as [|r rest IH]; intros best; cbn [first_min].
  - exists [], []. repeat split; constructor.
  - destruct (Qltb (current_price r) (current_price best)) eqn:E; qbool.
    + destruct (IH r) as (before & after & Heq & Hb & Ha).
      exists (best :: before), after. rewrite Heq. split; [reflexivity|].
      split; [|exact Ha]. constructor; [|exact Hb].
      pose proof (first_min_le r rest r (or_introl eq_refl)) as Hle. lra.
    + destruct (IH best) as (before & after & Heq & Hb & Ha).
      set (fm := first_min best rest) in *.
      destruct before as [|b before]; cbn [app] in Heq;
        injection Heq as Hbest Hrest.
      * exists [], (r :: after). split; [cbn [app]; congruence|].
        split; [constructor|]. constructor; [|exact Ha].
        rewrite <- Hbest. exact E.
      * subst b. exists (best :: r :: before), after.
        split; [cbn [app]; congruence|]. split; [|exact Ha].
        apply Forall_cons_iff in Hb as [Hb0 Hb].
        constructor; [exact Hb0|]. constructor; [lra | exact Hb].
Qed.

(** A pass of the loop adds its share to the first of the cheapest rows
    that fit into what is left of the budget: every affordable row before
    it costs more, every one after it at least as much. *)
Theorem rebalance_picks_first_cheapest (amount total : Q) (t t' : frame) :
  rebalance_step amount total t = Some t' ->
  exists before r after,
    affordable_rows amount total t = before ++ r :: after
    /\ Forall (fun x => current_price r < current_price x) before
    /\ Forall (fun x => current_price r <= current_price x) after
    /\ t' = add_one_share (label r) t.
Proof.
  unfold rebalance_step.
  destruct (affordable_rows amount total t) as [|b rest] eqn:E;
    [discriminate|].
  cbn [idxmin]. intros [= <-].
  destruct (first_min_split rest b) as (before & after & Heq & Hb & Ha).
  exists before, (first_min b rest), after. repeat split; assumption.
Qed.

(** ** Target spends and share counts *)

Lemma assign_allocation_returns_sum (top_stocks t0 : frame) :
  assign_allocation top_stocks = Return t0 ->
  Qsum (column allocation_percentage t0) == 100.
Proof.
  intros H. destruct top_stocks as [|r0 rest]; [discriminate H|].
  destruct (assign_allocation_sum (r0 :: rest)) as (t' & E & Hs);
    [discriminate|].
  rewrite E in H. injection H as <-. exact Hs.
Qed.

(** The target spends ([recommended_investment]) of the selected rows add
    up to the budget, whenever the allocation step returns. *)
Theorem target_spends_sum_to_budget (amount : Q) (top_stocks t0 : frame) :
  assign_allocation top_stocks = Return t0 ->
  Qsum (column recommended_investment (assign_recommended amount t0))
  == amount.
Proof.
  intros H. unfold assign_recommended. rewrite column_map.
  cbn [recommended_investment set_recommended_investment].
  rewrite Qsum_recommended, (assign_allocation_returns_sum _ _ H). field.
Qed.

Lemma rebalance_cases (fuel : nat) (amount : Q) (t t' : frame) :
  rebalance fuel amount t = Return t' ->
  t' = t \/ rebalance_loop fuel amount (total_actual t) t = Return t'.
Proof.
  unfold rebalance. destruct (Qltb (total_actual t) (amount * (8 # 10))).
  - intros H. right. exact H.
  - intros [= <-]. left. reflexivity.
Qed.

Lemma rebalance_tops_up (fuel : nat) (amount : Q) (t t' : frame) :
  rebalance fuel amount t = Return t' -> Forall2 topped_up t t'.
Proof.
  intros H. apply rebalance_cases in H as [->|H].
  - apply Forall2_topped_up_refl.
  - eapply rebalance_loop_tops_up, H.
Qed.

Lemma whole_number_plus (x : Q) (n : nat) (y : Q) :
  whole_number x -> y == x + inject_Z (Z.of_nat n) -> whole_number y.
Proof.
  intros (z & Hz & Hx) Hy. exists (z + Z.of_nat n)%Z. split; [lia|].
  rewrite Hy, Hx, inject_Z_plus. reflexivity.
Qed.

Lemma two_decimals_plus (x : Q) (n : nat) (y : Q) :
  two_decimals x -> y == x + inject_Z (Z.of_nat n) -> two_decimals y.
Proof.
  intros (z & Hx) Hy. exists (z + Z.of_nat n * 100)%Z.
  rewrite Hy, inject_Z_plus, inject_Z_mult.
  rewrite Qmult_plus_distr_l, Hx. reflexivity.
Qed.

Lemma calculate_shares_whole_number (amount : Q) (r : row) :
  10000 <= amount -> whole_number (calculate_shares amount r).
Proof.
  intros Ha. rewrite (calculate_shares_whole amount r Ha).
  destruct (Qleb (current_price r) 0);
    [exists 0%Z; split; [lia | reflexivity]|].
  cbv zeta. destruct (Qleb (1 # 2) _).
  - eexists. split; [|reflexivity]. lia.
  - exists 0%Z. split; [lia | reflexivity].
Qed.

Lemma calculate_shares_two_decimals (amount : Q) (r : row) :
  amount < 10000 -> two_decimals (calculate_shares amount r).
Proof.
  intros Ha. rewrite (calculate_shares_fractional amount r Ha).
  destruct (Qleb (current_price r) 0); [exists 0%Z; reflexivity|].
  unfold round2.
  exists (round_half_even (recommended_investment r / current_price r * 100)).
  field.
Qed.

Lemma quantize_shares (amount : Q) (P : Q -> Prop) (t : frame) :
  (forall r, P (calculate_shares amount r)) ->
  Forall (fun r => P (shares_to_buy r)) (quantize amount t).
Proof.
  intros HP. rewrite quantize_rows. apply List.Forall_map.
  apply List.Forall_forall. intros r _. cbn. apply HP.
Qed.

Lemma topped_up_shares (P : Q -> Prop) (t t' : frame) :
  (forall x n y, P x -> y == x + inject_Z (Z.of_nat n) -> P y) ->
  Forall2 topped_up t t' ->
  Forall (fun r => P (shares_to_buy r)) t ->
  Forall (fun r => P (shares_to_buy r)) t'.
Proof.
  intros HP H. induction H as [|r r' t t' [_ [n Hn]] _ IH]; intros Ht.
  - constructor.
  - apply Forall_cons_iff in Ht as [Hr Ht].
    constructor; [eapply HP; eassumption | apply IH, Ht].
Qed.

(** In a returned result the share counts are whole numbers, zero or more,
    when the budget is 10000 or above, and numbers with two decimals when
    it is below; the shares that the rebalance pass adds do not change
    that. *)
Theorem share_counts_fit_the_regime (fuel : nat) (amount : Q)
        (top_stocks t : frame) :
  allocate fuel amount top_stocks = Return t ->
  (10000 <= amount -> Forall (fun r => whole_number (shares_to_buy r)) t)
  /\ (amount < 10000 -> Forall (fun r => two_decimals (shares_to_buy r)) t).
Proof.
  intros H. apply allocate_inv in H as (t0 & _ & H).
  apply rebalance_tops_up in H. split; intros Ha.
  - apply (topped_up_shares whole_number _ _ whole_number_plus H).
    apply quantize_shares. intros r.
    apply calculate_shares_whole_number, Ha.
  - apply (topped_up_shares two_decimals _ _ two_decimals_plus H).
    apply quantize_shares. intros r.
    apply calculate_shares_two_decimals, Ha.
Qed.

(** ** How far quantization can move the spend *)

Lemma round_half_even_error (y : Q) :
  - (1 # 2) <= inject_Z (round_half_even y) - y
  /\ inject_Z (round_half_even y) - y <= 1 # 2.
Proof.
  unfold round_half_even.
  pose proof (Qfloor_le y) as Hlo. pose proof (Qlt_floor y) as Hhi.
  rewrite inject_Z_plus in Hhi. change (inject_Z 1) with 1 in Hhi.
  set (f := Qfloor y) in *.
  destruct (Qltb (y - inject_Z f) (1 # 2)) eqn:E1; qbool; [split; lra|].
  destruct (Qltb (1 # 2) (y - inject_Z f)) eqn:E2; qbool.
  - rewrite inject_Z_plus. change (inject_Z 1) with 1. split; lra.
  - destruct (Z.even f); [split; lra|].
    rewrite inject_Z_plus. change (inject_Z 1) with 1. split; lra.
Qed.

Lemma round2_error (x : Q) :
  - (1 # 200) <= round2 x - x /\ round2 x - x <= 1 # 200.
Proof.
  unfold round2. destruct (round_half_even_error (x * 100)) as [H1 H2].
  set (z := inject_Z (round_half_even (x * 100))) in *.
  assert (E : z / 100 == z * (1 # 100)) by (unfold Qdiv; reflexivity).
  rewrite E. split; lra.
Qed.

Lemma Qsum_plus {A : Type} (f g : A -> Q) (l : list A) :
  Qsum (map (fun x => f x + g x) l) == Qsum (map f l) + Qsum (map g l).
Proof.
  induction l as [|x l IH].
  - reflexivity.
  - change (f x + g x + Qsum (map (fun x => f x + g x) l)
            == f x + Qsum (map f l) + (g x + Qsum (map g l))).
    rewrite IH. ring.
Qed.

Lemma Qsum_times {A : Type} (f : A -> Q) (c : Q) (l : list A) :
  Qsum (map (fun x => f x * c) l) == Qsum (map f l) * c.
Proof.
  induction l as [|x l IH].
  - unfold Qsum. cbn. ring.
  - change (f x * c + Qsum (map (fun x => f x * c) l)
            == (f x + Qsum (map f l)) * c).
    rewrite IH. ring.
Qed.

Lemma fractional_row_error (amount : Q) (r : row) :
  amount < 10000 -> 0 < current_price r ->
  let target := amount * allocation_percentage r / 100 in
  let spend := actual_investment (quantize_row amount r) in
  target + current_price r * - (1 # 200) <= spend
  /\ spend <= target + current_price r * (1 # 200).
Proof.
  intros Ha Hp. cbv zeta. unfold quantize_row.
  cbn [actual_investment set_actual_investment shares_to_buy
       set_shares_to_buy current_price set_recommended_investment].
  rewrite (calculate_shares_fractional amount _ Ha).
  cbn [current_price recommended_investment set_recommended_investment].
  assert (E : Qleb (current_price r) 0 = false) by (apply Qleb_false, Hp).
  rewrite E.
  set (target := amount * allocation_percentage r / 100).
  destruct (round2_error (target / current_price r)) as [H1 H2].
  set (s := round2 (target / current_price r)) in *.
  assert (Et : target / current_price r * current_price r == target)
    by (field; lra).
  assert (Hlo : (target / current_price r - (1 # 200)) * current_price r
                <= s * current_price r)
    by (apply Qmult_le_compat_r; lra).
  assert (Hhi : s * current_price r
                <= (target / current_price r + (1 # 200)) * current_price r)
    by (apply Qmult_le_compat_r; lra).
  split; lra.
Qed.

(** Below 10000, with positive prices, the spend after quantization is the
    budget up to half a percent of the sum of the prices: rounding a share
    count to two decimals moves the spend on a row by at most 0.005 of its
    price. *)
Theorem fractional_spend_is_close_to_budget (amount : Q)
        (top_stocks t0 : frame) :
  amount < 10000 ->
  Forall (fun r => 0 < current_price r) top_stocks ->
  assign_allocation top_stocks = Return t0 ->
  let prices := Qsum (column current_price t0) in
  amount - prices * (1 # 200) <= total_actual (quantize amount t0)
  /\ total_actual (quantize amount t0) <= amount + prices * (1 # 200).
Proof.
  intros Ha Hp Hal. cbv zeta.
  assert (Hp0 : Forall (fun r => 0 < current_price r) t0).
  { pose proof (assign_allocation_price _ _ Hal) as E. unfold column in E.
    apply (proj1 (List.Forall_map current_price (fun p => 0 < p) t0)).
    rewrite E. apply List.Forall_map. exact Hp. }
  pose proof (assign_allocation_returns_sum _ _ Hal) as Hsum.
  unfold total_actual. rewrite quantize_rows, column_map.
  assert (Htarget : Qsum (map (fun r => amount * allocation_percentage r / 100)
                              t0) == amount).
  { rewrite Qsum_recommended, Hsum. field. }
  split.
  - apply Qle_trans
      with (Qsum (map (fun r => amount * allocation_percentage r / 100
                                + current_price r * - (1 # 200)) t0)).
    + rewrite Qsum_plus, (Qsum_times current_price), Htarget.
      unfold column. lra.
    + apply Qsum_le. eapply Forall_impl; [exact Hp0|]. intros r Hr.
      apply (fractional_row_error amount r Ha Hr).
  - apply Qle_trans
      with (Qsum (map (fun r => amount * allocation_percentage r / 100
                                + current_price r * (1 # 200)) t0)).
    + apply Qsum_le. eapply Forall_impl; [exact Hp0|]. intros r Hr.
      apply (fractional_row_error amount r Ha Hr).
    + rewrite Qsum_plus, (Qsum_times current_price), Htarget.
      unfold column. lra.
Qed.

Lemma whole_row_bound (amount : Q) (r : row) :
  10000 <= amount -> 0 <= amount -> 0 <= allocation_percentage r ->
  actual_investment (quantize_row amount r)
  <= 2 * (amount * allocation_percentage r / 100).
Proof.
  intros Ha Ha0 Hal. unfold quantize_row.
  cbn [actual_investment set_actual_investment shares_to_buy
       set_shares_to_buy current_price set_recommended_investment].
  rewrite (calculate_shares_whole amount _ Ha).
  cbn [current_price recommended_investment set_recommended_investment].
  set (target := amount * allocation_percentage r / 100).
  assert (Ht : 0 <= target).
  { subst target. apply Qle_shift_div_l; [reflexivity|].
    rewrite Qmult_0_l. apply Qmult_le_0_compat; assumption. }
  destruct (Qleb (current_price r) 0) eqn:Ep; qbool; [lra|].
  cbv zeta.
  set (p := current_price r) in *.
  assert (Et : target / p * p == target) by (field; lra).
  destruct (Qleb (1 # 2) (target / p)) eqn:Ee; qbool; [|lra].
  assert (Hhalf : (1 # 2) * p <= target / p * p)
    by (apply Qmult_le_compat_r; lra).
  destruct (Z.max_spec 1 (Qfloor (target / p))) as [[Hlt ->]|[Hge ->]].
  - pose proof (Qfloor_le (target / p)) as Hf.
    assert (Hfp : inject_Z (Qfloor (target / p)) * p <= target / p * p)
      by (apply Qmult_le_compat_r; lra).
    lra.
  - change (inject_Z 1) with 1. lra.
Qed.

Lemma rebalance_loop_within_budget (fuel : nat) (amount : Q) :
  forall (t t' : frame),
    List.NoDup (column label t) ->
    Forall consistent t ->
    total_actual t <= amount ->
    rebalance_loop fuel amount (total_actual t) t = Return t' ->
    total_actual t' <= amount.
Proof.
  induction fuel as [|fuel IH]; intros t t' Hnd Hc Hle;
    cbn [rebalance_loop];
    (destruct (Qltb (total_actual t) (amount * (95 # 100)));
     [|intros [= <-]; exact Hle]);
    (destruct (rebalance_step amount (total_actual t) t) as [t1|] eqn:Es;
     [|intros [= <-]; exact Hle]).
  - discriminate.
  - apply rebalance_step_some in Es as (r & Hin & Hr & _ & ->).
    pose proof (add_one_share_total r t Hnd Hc Hin) as Ht.
    apply IH.
    + rewrite add_one_share_label. exact Hnd.
    + apply add_one_share_consistent, Hc.
    + rewrite Ht. lra.
Qed.

(** At 10000 and above, with quality scores that are not negative and
    distinct index labels, a returned result never spends more than twice
    the budget: a row gets one share only from half a share's worth of
    target spend on, and the rebalance pass stays within the budget. *)
Theorem whole_share_spend_is_at_most_twice_budget (fuel : nat) (amount : Q)
        (top_stocks t : frame) :
  10000 <= amount ->
  Forall (fun r => 0 <= quality_score r) top_stocks ->
  List.NoDup (column label top_stocks) ->
  allocate fuel amount top_stocks = Return t ->
  total_actual t <= 2 * amount.
Proof.
  intros Ha Hq Hnd H. apply allocate_inv in H as (t0 & Hal & H).
  assert (Ha0 : 0 <= amount) by lra.
  pose proof (assign_allocation_nonneg _ _ Hq Hal) as Hnn.
  pose proof (assign_allocation_returns_sum _ _ Hal) as Hsum.
  assert (Hquant : total_actual (quantize amount t0) <= 2 * amount).
  { unfold total_actual. rewrite quantize_rows, column_map.
    apply Qle_trans
      with (Qsum (map (fun r => 2 * (amount * allocation_percentage r / 100))
                      t0)).
    - apply Qsum_le. eapply Forall_impl; [exact Hnn|]. intros r Hr.
      apply whole_row_bound; assumption.
    - assert (E : Qsum (map (fun r => 2 * (amount * allocation_percentage r
                                            / 100)) t0)
                  == Qsum (map (fun r => amount * allocation_percentage r / 100)
                               t0) * 2).
      { rewrite <- Qsum_times. apply Qsum_eq.
        apply List.Forall_forall. intros r _. ring. }
      rewrite E, Qsum_recommended, Hsum. apply Qeq_le. field. }
  unfold rebalance in H.
  destruct (Qltb (total_actual (quantize amount t0)) (amount * (8 # 10)))
    eqn:E; qbool.
  - apply Qle_trans with amount; [|lra].
    eapply rebalance_loop_within_budget; [| | |exact H].
    + rewrite quantize_label, (assign_allocation_label _ _ Hal). exact Hnd.
    + apply quantize_consistent.
    + lra.
  - injection H as <-. exact Hquant.
Qed.

(** ** The call and its store *)

Lemma allocate_nothing (fuel : nat) (amount : Q) :
  allocate fuel amount [] = Raise ZeroDivisionError.
Proof. reflexivity. Qed.

(** A count of 0 on a frame that is not empty selects no row, and the equal
    split [100.0 / len(top_stocks)] then divides by zero: the call raises
    [ZeroDivisionError]. *)
Theorem count_zero_raises (sort_values : frame -> frame) (fuel : nat)
        (df : nat) (amount : Q) (s : store) (d : frame) :
  s !! df = Some d ->
  d <> [] ->
  (select_top_stocks sort_values fuel df amount 0 s).1
  = Raise ZeroDivisionError.
Proof.
  intros Hs Hd.
  destruct (select_top_stocks_run sort_values fuel df amount 0 s d Hs Hd)
    as (top & s' & Hrun & _).
  rewrite Hrun. cbn [fst]. unfold ranked_head, head. cbn [Z.leb Z.to_nat].
  cbn [firstn]. rewrite allocate_nothing. reflexivity.
Qed.

(** On a frame that is not empty, a call that returns hands back a frame
    that did not exist before, never the caller's own: it holds what
    [allocate] computes from the first [count] rows of the ranked frame,
    and the caller's frame is still as it was. *)
Theorem result_is_a_new_frame (sort_values : frame -> frame) (fuel : nat)
        (df : nat) (amount : Q) (count : Z) (s s' : store) (d : frame)
        (top : nat) :
  s !! df = Some d ->
  d <> [] ->
  select_top_stocks sort_values fuel df amount count s = (Return top, s') ->
  s !! top = None
  /\ top <> df
  /\ s' !! df = Some d
  /\ exists t, s' !! top = Some t
               /\ allocate fuel amount (ranked_head sort_values count d)
                  = Return t.
Proof.
  intros Hs Hd Hret.
  destruct (select_top_stocks_run sort_values fuel df amount count s d Hs Hd)
    as (top' & s'' & Hrun & Hfresh & Hres).
  rewrite Hret in Hrun.
  destruct (allocate fuel amount (ranked_head sort_values count d))
    as [t| |] eqn:Eal; cbn [outcome_map] in Hrun; try discriminate.
  injection Hrun as -> ->.
  split; [exact Hfresh|]. split; [intros ->; congruence|]. split.
  - destruct (keeps_select_top_stocks sort_values fuel df amount count s s)
      as [Hsub _]; [reflexivity|].
    rewrite Hret in Hsub. cbn [snd] in Hsub.
    apply (lookup_weaken _ _ _ _ Hs Hsub).
  - exists t. split; [apply Hres; reflexivity | reflexivity].
Qed.

(** ** The recommendation step *)

Lemma filter_total (t : frame) :
  Forall (fun r => 0 <= shares_to_buy r) t ->
  Forall consistent t ->
  total_actual (List.filter (fun r => Qltb 0 (shares_to_buy r)) t)
  == total_actual t.
Proof.
  induction t as [|r t IH]; intros Hs Hc; [reflexivity|].
  apply Forall_cons_iff in Hs as [Hr Hs].
  apply Forall_cons_iff in Hc as [Hcr Hc].
  cbn [List.filter]. destruct (Qltb 0 (shares_to_buy r)) eqn:E; qbool.
  - rewrite !total_actual_cons, IH by assumption. reflexivity.
  - rewrite total_actual_cons, IH by assumption.
    unfold consistent in Hcr. rewrite Hcr.
    assert (Ez : shares_to_buy r == 0) by lra. rewrite Ez. ring.
Qed.

Lemma allocate_shares_nonneg (fuel : nat) (amount : Q) (top_stocks t : frame) :
  0 <= amount ->
  Forall (fun r => 0 <= quality_score r) top_stocks ->
  allocate fuel amount top_stocks = Return t ->
  Forall (fun r => 0 <= shares_to_buy r) t.
Proof.
  intros Ha Hq H. apply allocate_inv in H as (t0 & Hal & H).
  pose proof (assign_allocation_nonneg _ _ Hq Hal) as Hnn.
  apply rebalance_tops_up in H.
  apply (topped_up_shares (fun x => 0 <= x) _ _) in H; [exact H | |].
  - intros x n y Hx Hy. rewrite Hy.
    assert (Hn : 0 <= inject_Z (Z.of_nat n)).
    { change 0 with (inject_Z 0). rewrite <- Zle_Qle. lia. }
    lra.
  - rewrite quantize_rows. apply List.Forall_map.
    eapply Forall_impl; [exact Hnn|]. intros r Hr. cbn.
    apply calculate_shares_nonneg. cbn.
    apply Qle_shift_div_l; [reflexivity|]. rewrite Qmult_0_l.
    apply Qmult_le_0_compat; assumption.
Qed.

Lemma allocate_consistent (fuel : nat) (amount : Q) (top_stocks t : frame) :
  allocate fuel amount top_stocks = Return t -> Forall consistent t.
Proof.
  intros H. apply allocate_inv in H as (t0 & _ & H).
  apply rebalance_cases in H as [->|H].
  - apply quantize_consistent.
  - eapply rebalance_loop_consistent; [apply quantize_consistent | exact H].
Qed.

(** The recommendation step keeps the rows with a positive share count (or
    all rows, if there is none) and reports the sum of their
    [actual_investment]: for a result of the allocation with a budget and
    quality scores that are not negative, that sum is the whole spend. *)
Theorem recommendation_reports_the_whole_spend (fuel : nat) (amount : Q)
        (top_stocks t : frame) :
  0 <= amount ->
  Forall (fun r => 0 <= quality_score r) top_stocks ->
  allocate fuel amount top_stocks = Return t ->
  total_actual (investable_stocks t) == total_actual t.
Proof.
  intros Ha Hq H. unfold investable_stocks.
  pose proof (filter_total t (allocate_shares_nonneg _ _ _ _ Ha Hq H)
                (allocate_consistent _ _ _ _ H)) as E.
  destruct (List.filter _ t); [reflexivity | exact E].
Qed.

(** ** The market-cap strategy of the workflow *)

(** The categories of a larger amount include those of a smaller one;
    "small" is always among them, "large" from 50000 on, and "small" is the
    only one exactly below 10000, the amounts for which [calculate_shares]
    rounds to two decimals. *)
Theorem market_cap_categories_grow (a1 a2 : Q) :
  a1 <= a2 ->
  incl (determine_market_cap_category a1) (determine_market_cap_category a2)
  /\ In "small"%string (determine_market_cap_category a1)
  /\ (In "large"%string (determine_market_cap_category a1) <-> 50000 <= a1)
  /\ (determine_market_cap_category a1 = [ "small"%string ] <-> a1 < 10000).
Proof.
  intros Hle. unfold determine_market_cap_category.
  destruct (Qltb a1 10000) eqn:E1, (Qltb a2 10000) eqn:E2,
           (Qltb a1 50000) eqn:E3, (Qltb a2 50000) eqn:E4; qbool;
    try (exfalso; lra);
    (split; [intros x Hx; cbn in *; intuition (subst; auto)|]);
    (split; [cbn; auto|]);
    (split; (split; [intros H; cbn in H|intros H; cbn]));
    try lra; try discriminate; try reflexivity;
    try (exfalso; lra); try (intuition discriminate); auto.
Qed.

(** ** From the fetched frame to the selection *)

Lemma Forall_firstn {A : Type} (P : A -> Prop) (n : nat) (l : list A) :
  Forall P l -> Forall P (firstn n l).
Proof.
  rewrite !List.Forall_forall. intros H x Hx. apply H.
  rewrite <- (firstn_skipn n l). apply in_or_app. left. exact Hx.
Qed.

Lemma NoDup_firstn {A : Type} (n : nat) (l : list A) :
  List.NoDup l -> List.NoDup (firstn n l).
Proof.
  intros H. rewrite <- (firstn_skipn n l) in H.
  apply List.NoDup_app_remove_r in H. exact H.
Qed.

Lemma NoDup_range_index (n : nat) :
  forall i, List.NoDup (map Z.of_nat (seq i n)).
Proof.
  induction n as [|n IH]; intros i; cbn [seq map]; constructor.
  - intros Hin. apply in_map_iff in Hin as (x & Hx & Hseq).
    apply Nat2Z.inj in Hx. subst x. apply in_seq in Hseq. lia.
  - apply IH.
Qed.

Lemma ranked_head_Forall (P : row -> Prop) (sort_values : frame -> frame)
      (count : Z) (d : frame) :
  (forall v r, P r -> P (set_popularity_score v r)) ->
  sorts_descending sort_values ->
  Forall P d ->
  Forall P (ranked_head sort_values count d).
Proof.
  intros HP Hsort Hd. unfold ranked_head, head.
  assert (Hs : Forall P (sort_values (assign_popularity d))).
  { destruct (Hsort (assign_popularity d)) as [Hperm _].
    apply (Permutation_Forall Hperm). unfold assign_popularity.
    apply List.Forall_map. eapply Forall_impl; [exact Hd|].
    intros r Hr. apply HP, Hr. }
  destruct (0 <=? count)%Z; apply Forall_firstn, Hs.
Qed.

Lemma ranked_head_labels (sort_values : frame -> frame) (count : Z)
      (d : frame) :
  sorts_descending sort_values ->
  List.NoDup (column label d) ->
  List.NoDup (column label (ranked_head sort_values count d)).
Proof.
  intros Hsort Hd. unfold ranked_head, head.
  assert (Hs : List.NoDup (column label (sort_values (assign_popularity d)))).
  { destruct (Hsort (assign_popularity d)) as [Hperm _].
    apply (Permutation_NoDup (Permutation_map label Hperm)).
    unfold assign_popularity. rewrite map_map. exact Hd. }
  unfold column in *.
  destruct (0 <=? count)%Z; rewrite <- firstn_map; apply NoDup_firstn, Hs.
Qed.

Lemma ranked_head_length (sort_values : frame -> frame) (count : Z)
      (d : frame) :
  sorts_descending sort_values ->
  (0 <= count)%Z ->
  length (ranked_head sort_values count d)
  = Nat.min (Z.to_nat count) (length d).
Proof.
  intros Hsort Hc. unfold ranked_head, head.
  destruct (Hsort (assign_popularity d)) as [Hperm _].
  apply Z.leb_le in Hc. rewrite Hc, length_firstn.
  rewrite <- (Permutation_length Hperm). unfold assign_popularity.
  rewrite length_map. reflexivity.
Qed.

Lemma allocate_length (fuel : nat) (amount : Q) (top_stocks t : frame) :
  allocate fuel amount top_stocks = Return t ->
  length t = length top_stocks.
Proof.
  intros H. apply allocate_inv in H as (t0 & Hal & H).
  apply rebalance_tops_up, Forall2_length in H. rewrite <- H.
  rewrite quantize_rows, length_map.
  apply assign_allocation_rows in Hal as [f ->]. apply length_map.
Qed.

Lemma fetch_yahoo_data_length (rng : nat -> draws) (symbols : list string)
      (max_stocks : Z) :
  (0 <= max_stocks)%Z ->
  length (fetch_yahoo_data rng symbols max_stocks)
  = Nat.min (Z.to_nat max_stocks) (length symbols).
Proof.
  intros Hm.
  rewrite <- (length_map fst), fetch_yahoo_data_rows.
  rewrite <- (length_map Quote.symbol), generate_all_symbols.
  unfold slice_to.
  assert (E : (0 <=? Z.min max_stocks (Z.of_nat (length symbols)))%Z = true)
    by (apply Z.leb_le; lia).
  rewrite E, length_firstn. lia.
Qed.

Lemma as_rows_length (df : list (Quote.t * float64)) :
  forall i d, as_rows i df = Some d -> length d = length df.
Proof.
  induction df as [|[q sc] df IH]; intros i d; cbn [as_rows].
  - intros [= <-]. reflexivity.
  - destruct sc; try discriminate.
    destruct (as_rows (S i) df) as [d'|] eqn:E; [|discriminate].
    cbn [option_map]. intros [= <-]. cbn [length]. f_equal.
    apply (IH (S i)), E.
Qed.

(** The frames that [fetch_yahoo_data] builds are always allocated.  With
    random numbers in their ranges, at least one symbol, [max_stocks] and
    [count] of 1 or more, a positive budget and a sort that orders by
    popularity, [select_top_stocks] returns, within [amount / 100] added
    shares: it does not divide by zero and the rebalance loop ends.  The
    result has [min(count, max_stocks, len(symbols))] rows. *)
Theorem fetched_stocks_are_always_allocated
        (sort_values : frame -> frame) (rng : nat -> draws)
        (symbols : list string) (max_stocks : Z) (amount : Q) (count : Z) :
  sorts_descending sort_values ->
  (forall i, valid_draws (rng i)) ->
  symbols <> [] ->
  (1 <= max_stocks)%Z ->
  (1 <= count)%Z ->
  0 < amount ->
  exists d,
    as_frame (fetch_yahoo_data rng symbols max_stocks) = Some d
    /\ forall (s : store) (df fuel : nat),
         s !! df = Some d ->
         (Z.to_nat (Qfloor (amount / 100)) <= fuel)%nat ->
         exists top s' t,
           select_top_stocks sort_values fuel df amount count s
           = (Return top, s')
           /\ s' !! top = Some t
           /\ length t
              = Nat.min (Z.to_nat count)
                        (Nat.min (Z.to_nat max_stocks) (length symbols)).
Proof.
  intros Hsort Hrng Hsym Hmax Hcount Hamount.
  pose proof (fetched_rows rng symbols max_stocks Hrng) as Hrows.
  destruct (as_rows_fetched _ Hrows 0) as (d & Hframe & Hwf & Hlabels & _).
  exists d. split; [exact Hframe|].
  assert (Hlen : length d
                 = Nat.min (Z.to_nat max_stocks) (length symbols)).
  { rewrite (as_rows_length _ _ _ Hframe).
    apply fetch_yahoo_data_length. lia. }
  assert (Hne : d <> []).
  { intros ->. cbn [length] in Hlen. destruct symbols; [contradiction|].
    cbn [length] in Hlen. lia. }
  intros s df fuel Hs Hfuel.
  set (top_stocks := ranked_head sort_values count d).
  assert (Htop : Forall (fun r => 100 <= current_price r
                                  /\ 0 <= quality_score r) top_stocks).
  { apply ranked_head_Forall; [intros v r Hr; exact Hr | exact Hsort |].
    eapply Forall_impl; [exact Hwf|]. intros r (H1 & _ & _ & H4 & _).
    split; lra. }
  assert (Hnd : List.NoDup (column label top_stocks)).
  { apply ranked_head_labels; [exact Hsort|]. rewrite Hlabels.
    apply NoDup_range_index. }
  assert (Hlt : length top_stocks = Nat.min (Z.to_nat count) (length d))
    by (apply ranked_head_length; [exact Hsort | lia]).
  assert (Htne : top_stocks <> []).
  { intros E. rewrite E in Hlt. cbn [length] in Hlt.
    destruct d; [contradiction|]. cbn [length] in Hlt. lia. }
  destruct (assign_allocation_sum top_stocks Htne) as (t0 & Hal & _).
  destruct (rebalance_terminates amount 100 top_stocks t0) as [t Ht];
    try assumption; try reflexivity.
  { eapply Forall_impl; [exact Htop|]. intros r [Hr _]. exact Hr. }
  { eapply Forall_impl; [exact Htop|]. intros r [_ Hr]. exact Hr. }
  assert (Hall : allocate fuel amount top_stocks = Return t).
  { unfold allocate. rewrite Hal.
    eapply rebalance_more_fuel; [exact Hfuel | exact Ht]. }
  destruct (select_top_stocks_run sort_values fuel df amount count s d Hs Hne)
    as (top & s' & Hrun & _ & Hres).
  fold top_stocks in Hrun, Hres. rewrite Hall in Hrun.
  exists top, s', t. split; [exact Hrun|].
  split; [apply Hres, Hall|].
  rewrite (allocate_length _ _ _ _ Hall), Hlt, Hlen. reflexivity.
Qed.

(** * Instances of the further properties *)

Lemma calculate_risk_monotone_witness :
  (_calculate_risk 12 = "Low"%string -> _calculate_risk 3 = "Low"%string)
  /\ (_calculate_risk 3 = "High"%string -> _calculate_risk 12 = "High"%string).
Proof.
  apply (calculate_risk_monotone 3 12). discriminate.
Defined.

Lemma generated_quote_is_well_formed_witness :
  let q := _generate_realistic_stock "TCS" middle_draws in
  let range := dict_get price_ranges "TCS" (100, 500) in
  let price := Quote.current_price q in
  (fst range <= price /\ price <= snd range)
  /\ (100 <= price /\ price <= 34000)
  /\ (1000000 <= Quote.volume q <= 50000000)%Z
  /\ (price * 10000000 <= Quote.market_cap q
      /\ Quote.market_cap q <= price * 100000000)
  /\ (Quote.low q <= price /\ price <= Quote.high q)
  /\ (Quote.week52_low q < price /\ price < Quote.week52_high q).
Proof.
  apply (generated_quote_is_well_formed "TCS" middle_draws).
  unfold valid_draws, unit_interval, below. cbn.
  repeat split; try discriminate; lia.
Defined.

Lemma generated_risk_is_never_high_witness :
  let q := _generate_realistic_stock "TCS" middle_draws in
  (0 <= Quote.volatility q /\ Quote.volatility q <= 25 # 2)
  /\ (Quote.risk_level q = "Low"%string
      \/ Quote.risk_level q = "Medium"%string).
Proof.
  apply (generated_risk_is_never_high "TCS" middle_draws).
  unfold valid_draws, unit_interval, below. cbn.
  repeat split; try discriminate; lia.
Defined.

Lemma quality_scores_between_15_and_100_witness :
  let df := generate_all middle_rng 0 three_symbols in
  map fst (_add_quality_scores df) = df
  /\ Forall (fun scored => exists v, snd scored = Fin v /\ 15 <= v /\ v <= 100)
            (_add_quality_scores df).
Proof.
  apply (quality_scores_between_15_and_100
           (generate_all middle_rng 0 three_symbols)).
  - repeat constructor; vm_compute; discriminate.
  - constructor. vm_compute. reflexivity.
Defined.

Lemma quality_scores_nan_without_caps_witness :
  Forall (fun scored => snd scored = NaN)
         (_add_quality_scores
            [ Quote.mk "X" "X Ltd" 100 0 0 1000 0 20 1 2 "Other" "Low"
                       120 80 100 101 99 100 ]).
Proof.
  apply quality_scores_nan_without_caps.
  - repeat constructor. vm_compute. discriminate.
  - vm_compute. reflexivity.
Defined.

Lemma popularity_between_0_and_100_witness :
  Forall (fun r => exists p, popularity_score r = Fin p /\ 0 <= p /\ p <= 100)
         (assign_popularity scenario_AB).
Proof.
  apply (popularity_between_0_and_100 scenario_AB).
  - repeat constructor; vm_compute; discriminate.
  - constructor. vm_compute. reflexivity.
  - constructor. vm_compute. reflexivity.
Defined.

Lemma fetched_frame_is_well_formed_witness :
  exists d,
    as_frame (fetch_yahoo_data middle_rng three_symbols 30) = Some d
    /\ Forall fetched_row d
    /\ column label d = map Z.of_nat (seq 0 (length d))
    /\ column symbol d
       = map (fun scored => Quote.symbol (fst scored))
             (fetch_yahoo_data middle_rng three_symbols 30).
Proof.
  apply (fetched_frame_is_well_formed middle_rng three_symbols 30).
  intros i. unfold middle_rng, valid_draws, unit_interval, below. cbn.
  repeat split; try discriminate; lia.
Defined.

Lemma rebalance_only_adds_shares_witness :
  exists t',
    rebalance 30 100000 (quantize 100000 uneven_allocated) = Return t'
    /\ Forall2 topped_up (quantize 100000 uneven_allocated) t'.
Proof.
  eexists. split; [vm_compute; reflexivity|].
  apply (rebalance_only_adds_shares 30 100000). vm_compute. reflexivity.
Defined.

Lemma rebalance_stops_for_a_reason_witness :
  exists t',
    rebalance 30 100000 (quantize 100000 uneven_allocated) = Return t'
    /\ ((100000 * (8 # 10) <= total_actual (quantize 100000 uneven_allocated)
         /\ t' = quantize 100000 uneven_allocated)
        \/ 100000 * (95 # 100) <= total_actual t'
        \/ Forall (fun r => 100000 - total_actual t' < current_price r) t').
Proof.
  eexists. split; [vm_compute; reflexivity|].
  apply (rebalance_stops_for_a_reason 30 100000). vm_compute. reflexivity.
Defined.

Lemma rebalance_picks_first_cheapest_witness :
  exists t' before r after,
    rebalance_step 100000 70000 (quantize 100000 uneven_allocated) = Some t'
    /\ affordable_rows 100000 70000 (quantize 100000 uneven_allocated)
       = before ++ r :: after
    /\ Forall (fun x => current_price r < current_price x) before
    /\ Forall (fun x => current_price r <= current_price x) after
    /\ t' = add_one_share (label r) (quantize 100000 uneven_allocated).
Proof.
  eexists.
  destruct (rebalance_picks_first_cheapest 100000 70000
              (quantize 100000 uneven_allocated) _ eq_refl)
    as (before & r & after & H).
  exists before, r, after. split; [reflexivity | exact H].
Defined.

Lemma target_spends_sum_to_budget_witness :
  exists t0,
    assign_allocation uneven = Return t0
    /\ Qsum (column recommended_investment (assign_recommended 100000 t0))
       == 100000.
Proof.
  eexists. split; [vm_compute; reflexivity|].
  apply (target_spends_sum_to_budget 100000 uneven). vm_compute. reflexivity.
Defined.

Lemma share_counts_fit_the_regime_witness :
  exists t,
    allocate 30 100000 uneven = Return t
    /\ (10000 <= 100000 -> Forall (fun r => whole_number (shares_to_buy r)) t)
    /\ (100000 < 10000 -> Forall (fun r => two_decimals (shares_to_buy r)) t).
Proof.
  eexists. split; [vm_compute; reflexivity|].
  apply (share_counts_fit_the_regime 30 100000 uneven). vm_compute.
  reflexivity.
Defined.

Lemma fractional_spend_is_close_to_budget_witness :
  exists t0,
    assign_allocation scenario_AB = Return t0
    /\ 150 - Qsum (column current_price t0) * (1 # 200)
       <= total_actual (quantize 150 t0)
    /\ total_actual (quantize 150 t0)
       <= 150 + Qsum (column current_price t0) * (1 # 200).
Proof.
  eexists. split; [vm_compute; reflexivity|].
  apply (fractional_spend_is_close_to_budget 150 scenario_AB).
  - reflexivity.
  - repeat constructor.
  - vm_compute. reflexivity.
Defined.

Lemma whole_share_spend_is_at_most_twice_budget_witness :
  exists t,
    allocate 0 10000 overpriced = Return t
    /\ total_actual t <= 2 * 10000.
Proof.
  eexists. split; [vm_compute; reflexivity|].
  apply (whole_share_spend_is_at_most_twice_budget 0 10000 overpriced).
  - discriminate.
  - repeat constructor. discriminate.
  - repeat constructor. intros [].
  - vm_compute. reflexivity.
Defined.

Lemma count_zero_raises_witness :
  (select_top_stocks sort_ties_reversed 5 0 1000 0 store_with_unpriced).1
  = Raise ZeroDivisionError.
Proof.
  apply (count_zero_raises sort_ties_reversed 5 0 1000 store_with_unpriced
           unpriced).
  - reflexivity.
  - discriminate.
Defined.

Lemma result_is_a_new_frame_witness :
  exists top s',
    select_top_stocks sort_ties_reversed 0 0 10000 10
                      ({[ 0%nat := overpriced ]} : store)
    = (Return top, s')
    /\ ({[ 0%nat := overpriced ]} : store) !! top = None
    /\ top <> 0%nat
    /\ s' !! 0%nat = Some overpriced
    /\ exists t, s' !! top = Some t
                 /\ allocate 0 10000 (ranked_head sort_ties_reversed 10 overpriced)
                    = Return t.
Proof.
  eexists. eexists. split; [vm_compute; reflexivity|].
  apply (result_is_a_new_frame sort_ties_reversed 0 0 10000 10
           ({[ 0%nat := overpriced ]} : store) _ overpriced).
  - reflexivity.
  - discriminate.
  - vm_compute. reflexivity.
Defined.

Lemma recommendation_reports_the_whole_spend_witness :
  exists t,
    allocate 30 100000 uneven = Return t
    /\ total_actual (investable_stocks t) == total_actual t.
Proof.
  eexists. split; [vm_compute; reflexivity|].
  apply (recommendation_reports_the_whole_spend 30 100000 uneven).
  - discriminate.
  - repeat constructor; discriminate.
  - vm_compute. reflexivity.
Defined.

Lemma market_cap_categories_grow_witness :
  incl (determine_market_cap_category 9999)
       (determine_market_cap_category 50000)
  /\ In "small"%string (determine_market_cap_category 9999)
  /\ (In "large"%string (determine_market_cap_category 9999) <-> 50000 <= 9999)
  /\ (determine_market_cap_category 9999 = [ "small"%string ] <-> 9999 < 10000).
Proof.
  apply (market_cap_categories_grow 9999 50000). discriminate.
Defined.

Lemma fetched_stocks_are_always_allocated_witness :
  exists d,
    as_frame (fetch_yahoo_data middle_rng three_symbols 30) = Some d
    /\ forall (s : store) (df fuel : nat),
         s !! df = Some d ->
         (Z.to_nat (Qfloor (20000 / 100)) <= fuel)%nat ->
         exists top s' t,
           select_top_stocks sort_ties_reversed fuel df 20000 10 s
           = (Return top, s')
           /\ s' !! top = Some t
           /\ length t
              = Nat.min (Z.to_nat 10)
                        (Nat.min (Z.to_nat 30) (length three_symbols)).
Proof.
  apply (fetched_stocks_are_always_allocated sort_ties_reversed middle_rng
           three_symbols 30 20000 10).
  - apply sort_ties_reversed_sorts.
  - intros i. unfold middle_rng, valid_draws, unit_interval, below. cbn.
    repeat split; try discriminate; lia.
  - discriminate.
  - lia.
  - lia.
  - reflexivity.
Defined.
